(** * TF-IDF retrieval engine of the RAG chatbot: model and properties

    The development embeds the retrieval core of the chat front end
    ([preprocessText], [tokenize], [calculateTFIDF] and the class
    [RetrievalEngine] with [cosineSimilarity] and [retrieve]) and states
    the properties of its specification over that embedding.

    Conventions of the embedding.
    - A JavaScript string is a sequence of code units; the model covers
      code units below 256, written with [ascii].
    - An object literal [{}] used as a dictionary is a list of own
      properties in insertion order, looked up through [Object.prototype]
      when the key is not an own property.
    - Numbers are embedded twice.  In the main embedding a number is a real
      number or [NaN] and the arithmetic is exact: [Math.log] is [ln],
      [Math.sqrt] is [sqrt], and [+], [*], [/] are the operations of [R].
      The properties of the specification are stated and proved there.
      The module [Binary64] repeats the numeric functions on binary64
      floating-point numbers; it computes, and shows what rounding does to
      the scores. *)

From Stdlib Require Import Ascii String List Bool Arith NArith ZArith Lia.
From Stdlib Require Import Reals Lra Permutation Sorted.
From Stdlib Require PrimFloat.
From Stdlib Require Import DecimalString.
Import ListNotations.

Open Scope string_scope.
Open Scope list_scope.

(** ** Characters and strings *)

Module Text.

Definition code (c : ascii) : N := N_of_ascii c.

(** [String.prototype.toLowerCase] on one code unit below 256: the letters
    A-Z and the capital letters of the Latin-1 block move up by 32. *)
Definition lower_char (c : ascii) : ascii :=
  let n := code c in
  if ((65 <=? n) && (n <=? 90))%N then ascii_of_N (n + 32)
  else if ((192 <=? n) && (n <=? 222) && negb (n =? 215))%N
       then ascii_of_N (n + 32)
       else c.

(** The class [\w]: letters, digits and the underscore. *)
Definition is_word (c : ascii) : bool :=
  let n := code c in
  (((97 <=? n) && (n <=? 122)) || ((65 <=? n) && (n <=? 90))
   || ((48 <=? n) && (n <=? 57)) || (n =? 95))%N.

(** The class [\s] below 256: tab, line feed, vertical tab, form feed,
    carriage return, space and the no-break space.  [trim] strips the same
    characters. *)
Definition is_space (c : ascii) : bool :=
  let n := code c in
  (((9 <=? n) && (n <=? 13)) || (n =? 32) || (n =? 160))%N.

Definition space : ascii := " "%char.

Fixpoint map_chars (f : ascii -> ascii) (s : string) : string :=
  match s with
  | EmptyString => EmptyString
  | String c s' => String (f c) (map_chars f s')
  end.

Definition toLowerCase (s : string) : string := map_chars lower_char s.

(** [.replace(/[^\w\s]/g, " ")] *)
Definition replace_non_word (s : string) : string :=
  map_chars (fun c => if is_word c || is_space c then c else space) s.

(** [.replace(/\s+/g, " ")]: each maximal run of white space becomes one
    space.  [in_run] tells that the previous character was white space. *)
Fixpoint collapse_from (in_run : bool) (s : string) : string :=
  match s with
  | EmptyString => EmptyString
  | String c s' =>
      if is_space c
      then if in_run then collapse_from true s'
           else String space (collapse_from true s')
      else String c (collapse_from false s')
  end.

Definition collapse_spaces (s : string) : string := collapse_from false s.

Fixpoint trimStart (s : string) : string :=
  match s with
  | EmptyString => EmptyString
  | String c s' => if is_space c then trimStart s' else s
  end.

Fixpoint all_space (s : string) : bool :=
  match s with
  | EmptyString => true
  | String c s' => is_space c && all_space s'
  end.

Fixpoint trimEnd (s : string) : string :=
  match s with
  | EmptyString => EmptyString
  | String c s' => if all_space s then EmptyString else String c (trimEnd s')
  end.

(** [String.prototype.trim] *)
Definition trim (s : string) : string := trimEnd (trimStart s).

(** [.split(" ")]: the pieces between single spaces, empty pieces
    included; the empty string gives one empty piece. *)
Fixpoint split_space (s : string) : list string :=
  match s with
  | EmptyString => [EmptyString]
  | String c s' =>
      if Ascii.eqb c space then EmptyString :: split_space s'
      else match split_space s' with
           | [] => [String c EmptyString]
           | w :: ws => String c w :: ws
           end
  end.

End Text.

Import Text.

(** [preprocessText] *)
Definition preprocessText (text : string) : string :=
  trim (collapse_spaces (replace_non_word (toLowerCase text))).

(** [tokenize]; [None] is an absent ([undefined] or [null]) argument, which
    like the empty string is falsy. *)
Definition tokenize (text : option string) : list string :=
  match text with
  | None => []
  | Some t =>
      if String.eqb t EmptyString then []
      else filter (fun word => Nat.ltb 2 (String.length word))
                  (split_space (preprocessText t))
  end.

(** ** Numbers *)

(** A number is a real or [NaN].  No operation of the engine reaches an
    infinity over the reals: the three divisions are guarded
    ([Math.max(1, _)], [_ || 1] and the test [denom === 0]) and the argument
    of [Math.log] is a quotient of positive counts.  Where a guard would be
    needed the operations below answer [NaN]. *)
Inductive num : Type :=
| Fin (x : R)
| NaN.

Module Num.

Definition zero : num := Fin 0%R.
Definition one : num := Fin 1%R.
Definition of_nat (n : nat) : num := Fin (INR n).

Definition add (a b : num) : num :=
  match a, b with
  | Fin x, Fin y => Fin (x + y)%R
  | _, _ => NaN
  end.

Definition sub (a b : num) : num :=
  match a, b with
  | Fin x, Fin y => Fin (x - y)%R
  | _, _ => NaN
  end.

Definition mul (a b : num) : num :=
  match a, b with
  | Fin x, Fin y => Fin (x * y)%R
  | _, _ => NaN
  end.

Definition div (a b : num) : num :=
  match a, b with
  | Fin x, Fin y => if Req_dec_T y 0%R then NaN else Fin (x / y)%R
  | _, _ => NaN
  end.

(** [Math.log] *)
Definition log (a : num) : num :=
  match a with
  | Fin x => if Rlt_dec 0%R x then Fin (ln x) else NaN
  | NaN => NaN
  end.

(** [Math.sqrt] *)
Definition sqrt (a : num) : num :=
  match a with
  | Fin x => if Rle_dec 0%R x then Fin (R_sqrt.sqrt x) else NaN
  | NaN => NaN
  end.

(** [a === 0] *)
Definition is_zero (a : num) : bool :=
  match a with
  | Fin x => if Req_dec_T x 0%R then true else false
  | NaN => false
  end.

(** [a > 0]; false on [NaN]. *)
Definition positive (a : num) : bool :=
  match a with
  | Fin x => if Rlt_dec 0%R x then true else false
  | NaN => false
  end.

End Num.

(** ** Values and objects *)

(** The values that the dictionaries of the engine hold or inherit.
    [VObject] is an object reached through [Object.prototype] (the function
    [Object] under the key [constructor], the prototype itself under
    [__proto__]).  [VObjText] is a string that starts with the text of such
    an object, as [+ 1] makes it: it is not empty and is not a numeric
    literal, and stays so when [1] is appended again. *)
Inductive value : Type :=
| VUndefined
| VNum (n : num)
| VObject
| VObjText.

(** ToBoolean *)
Definition truthy (v : value) : bool :=
  match v with
  | VUndefined => false
  | VNum n => negb (Num.is_zero n) && match n with NaN => false | Fin _ => true end
  | VObject => true
  | VObjText => true
  end.

(** [a || b] *)
Definition or_else (a b : value) : value := if truthy a then a else b.

(** ToNumber *)
Definition to_number (v : value) : num :=
  match v with
  | VNum n => n
  | VUndefined | VObject | VObjText => NaN
  end.

(** [v + 1]: numeric addition on a number, string concatenation on an object
    (converted to its text first) and on a string. *)
Definition plus_one (v : value) : value :=
  match v with
  | VNum n => VNum (Num.add n Num.one)
  | VUndefined => VNum NaN
  | VObject | VObjText => VObjText
  end.

(** [a * b] converts both operands with ToNumber. *)
Definition times (a b : value) : num := Num.mul (to_number a) (to_number b).

Module Obj.

(** The own properties of an object created by [{}], oldest first. *)
Definition t : Type := list (string * value).

Definition empty : t := [].

(** The property names of [Object.prototype]. *)
Definition prototype_names : list string :=
  ["constructor"; "__proto__"; "hasOwnProperty"; "isPrototypeOf";
   "propertyIsEnumerable"; "toLocaleString"; "toString"; "valueOf";
   "__defineGetter__"; "__defineSetter__"; "__lookupGetter__";
   "__lookupSetter__"].

Definition inherited (k : string) : value :=
  if existsb (String.eqb k) prototype_names then VObject else VUndefined.

Fixpoint own (o : t) (k : string) : option value :=
  match o with
  | [] => None
  | (k', v) :: o' => if String.eqb k k' then Some v else own o' k
  end.

(** [o[k]] *)
Definition get (o : t) (k : string) : value :=
  match own o k with
  | Some v => v
  | None => inherited k
  end.

Fixpoint put (o : t) (k : string) (v : value) : t :=
  match o with
  | [] => [(k, v)]
  | (k', v') :: o' =>
      if String.eqb k k' then (k', v) :: o' else (k', v') :: put o' k v
  end.

(** [o[k] = v] for a number or a string [v].  The key [__proto__] is the
    accessor of [Object.prototype], whose setter ignores a value that is
    neither an object nor [null]; every other key becomes or stays an own
    property. *)
Definition set (o : t) (k : string) (v : value) : t :=
  if String.eqb k "__proto__" then o else put o k v.

(** [Object.keys(o)].  JavaScript lists the keys that are array indices
    first; the engine only sums over the keys, and the sums do not depend
    on the order of the keys, so the model keeps the insertion order. *)
Definition keys (o : t) : list string := map fst o.

End Obj.

(** [new Set(l)], as the list of its elements in insertion order. *)
Definition Set_add (acc : list string) (x : string) : list string :=
  if existsb (String.eqb x) acc then acc else acc ++ [x].

Definition new_Set (l : list string) : list string := fold_left Set_add l [].

(** ** Documents and the index *)

Record Document : Type := mkDocument {
  doc_id : Z;
  title : string;
  content : option string;
  timestamp : string
}.

(** [{ ...doc, tfidf }] *)
Record IndexedDocument : Type := mkIndexed {
  doc : Document;
  tfidf : Obj.t
}.

(** [{ ...doc, score }] *)
Record ScoredDocument : Type := mkScored {
  indexed : IndexedDocument;
  score : num
}.

(** [doc.content || ""] *)
Definition content_or_empty (d : Document) : string :=
  match content d with
  | Some c => c
  | None => EmptyString
  end.

(** The statement [o[term] = (o[term] || 0) + 1] of the three counting
    loops. *)
Definition count_term (o : Obj.t) (term : string) : Obj.t :=
  Obj.set o term (plus_one (or_else (Obj.get o term) (VNum Num.zero))).

(** The first loop of [calculateTFIDF]. *)
Definition termDocFreq (documents : list Document) : Obj.t :=
  fold_left
    (fun freq d =>
       fold_left count_term (new_Set (tokenize (Some (content_or_empty d)))) freq)
    documents Obj.empty.

Definition termFreq (terms : list string) : Obj.t :=
  fold_left count_term terms Obj.empty.

(** [documents.length || 1] *)
Definition docCount (documents : list Document) : nat :=
  match length documents with
  | O => 1
  | n => n
  end.

(** The body of the loop over [Object.keys(termFreq)]. *)
Definition tfidf_entry (documents : list Document) (freq_all : Obj.t)
    (terms : list string) (freq : Obj.t) (acc : Obj.t) (term : string) : Obj.t :=
  let tf := Num.div (to_number (Obj.get freq term))
                    (Num.of_nat (Nat.max 1 (length terms))) in
  let idf := Num.log (Num.div (Num.of_nat (docCount documents))
                              (to_number (or_else (Obj.get freq_all term)
                                                  (VNum Num.one)))) in
  Obj.set acc term (VNum (Num.mul tf idf)).

Definition calculateTFIDF (documents : list Document) : list IndexedDocument :=
  let freq_all := termDocFreq documents in
  map (fun d =>
         let terms := tokenize (Some (content_or_empty d)) in
         let freq := termFreq terms in
         mkIndexed d
           (fold_left (tfidf_entry documents freq_all terms freq)
                      (Obj.keys freq) Obj.empty))
      documents.

(** ** The retrieval engine *)

Record RetrievalEngine : Type := mkEngine {
  documents : list IndexedDocument
}.

(** [new RetrievalEngine(documents)], with [None] for an absent argument
    ([documents || []]). *)
Definition new_RetrievalEngine (docs : option (list Document)) : RetrievalEngine :=
  mkEngine (calculateTFIDF (match docs with Some l => l | None => [] end)).

(** One round of the loop of [cosineSimilarity] on the triple
    [(dotProduct, mag1, mag2)]. *)
Definition cosine_step (vec1 vec2 : Obj.t) (acc : num * num * num)
    (term : string) : num * num * num :=
  let '(dotProduct, mag1, mag2) := acc in
  let v1 := or_else (Obj.get vec1 term) (VNum Num.zero) in
  let v2 := or_else (Obj.get vec2 term) (VNum Num.zero) in
  (Num.add dotProduct (times v1 v2),
   Num.add mag1 (times v1 v1),
   Num.add mag2 (times v2 v2)).

Definition cosine_sums (vec1 vec2 : Obj.t) : num * num * num :=
  fold_left (cosine_step vec1 vec2)
            (new_Set (Obj.keys vec1 ++ Obj.keys vec2))
            (Num.zero, Num.zero, Num.zero).

Definition cosineSimilarity (vec1 vec2 : Obj.t) : num :=
  let '(dotProduct, mag1, mag2) := cosine_sums vec1 vec2 in
  let denom := Num.mul (Num.sqrt mag1) (Num.sqrt mag2) in
  if Num.is_zero denom then Num.zero else Num.div dotProduct denom.

(** The query vector of [retrieve]. *)
Definition queryVec (queryTerms : list string) : Obj.t :=
  fold_left count_term queryTerms Obj.empty.

(** The comparison function [(a, b) => b.score - a.score]. *)
Definition by_score (a b : ScoredDocument) : num := Num.sub (score b) (score a).

(** [Array.prototype.sort] is stable: [x] moves behind [y] only when the
    comparison function answers a positive number for [(x, y)], which
    [behind x y] tells.  For a comparison that is a total preorder, as it is
    on the scores that pass the filter of [retrieve], the stable order is
    unique; insertion from the right computes it. *)
Fixpoint sort_insert {A : Type} (behind : A -> A -> bool) (x : A) (l : list A)
  : list A :=
  match l with
  | [] => [x]
  | y :: l' => if behind x y then y :: sort_insert behind x l' else x :: l
  end.

Definition sort {A : Type} (behind : A -> A -> bool) (l : list A) : list A :=
  fold_right (sort_insert behind) [] l.

(** [by_score a b > 0]; a [NaN] counts as 0. *)
Definition lower_score (a b : ScoredDocument) : bool := Num.positive (by_score a b).

(** [l.slice(0, k)] *)
Definition slice0 {A : Type} (k : Z) (l : list A) : list A :=
  if (k <? 0)%Z then firstn (Z.to_nat (Z.of_nat (length l) + k)) l
  else firstn (Z.to_nat k) l.

(** The list that [retrieve] maps and filters, before sorting. *)
Definition scored (this : RetrievalEngine) (qv : Obj.t) : list ScoredDocument :=
  map (fun d => mkScored d (cosineSimilarity qv (tfidf d))) (documents this).

Definition retrieve (this : RetrievalEngine) (query : option string) (topK : Z)
  : list ScoredDocument :=
  match query with
  | None => []
  | Some q =>
      if String.eqb q EmptyString || String.eqb (trim q) EmptyString then []
      else
        let queryTerms := tokenize query in
        match queryTerms with
        | [] => []
        | _ =>
            slice0 topK
              (sort lower_score
                 (filter (fun d => Num.positive (score d))
                         (scored this (queryVec queryTerms))))
        end
  end.

(** The default [topK = 3]. *)
Definition retrieve_default (this : RetrievalEngine) (query : option string) :=
  retrieve this query 3.

(** ** The engine on binary64 numbers *)

(** The same functions on the numbers that JavaScript computes with, the
    binary64 floating-point numbers of IEEE 754 with rounding to nearest.
    This embedding runs the engine on a given collection and query and shows
    the rounded scores.  [Math.log], which each implementation approximates
    in its own way, is an argument of [calculateTFIDF]. *)
Module Binary64.

Import PrimFloat.
Local Open Scope float_scope.

Inductive value : Type :=
| VUndefined
| VNum (x : float)
| VObject
| VObjText.

Definition truthy (v : value) : bool :=
  match v with
  | VUndefined => false
  | VNum x => negb (x =? 0) && negb (is_nan x)
  | VObject => true
  | VObjText => true
  end.

Definition or_else (a b : value) : value := if truthy a then a else b.

Definition to_number (v : value) : float :=
  match v with
  | VNum x => x
  | VUndefined | VObject | VObjText => nan
  end.

Definition plus_one (v : value) : value :=
  match v with
  | VNum x => VNum (x + 1)
  | VUndefined => VNum nan
  | VObject | VObjText => VObjText
  end.

Definition times (a b : value) : float := to_number a * to_number b.

(** A length or a count as a number. *)
Fixpoint of_nat (n : nat) : float :=
  match n with
  | O => 0
  | S n' => of_nat n' + 1
  end.

Definition obj : Type := list (string * value).

Definition inherited (k : string) : value :=
  if existsb (String.eqb k) Obj.prototype_names then VObject else VUndefined.

Fixpoint own (o : obj) (k : string) : option value :=
  match o with
  | [] => None
  | (k', v) :: o' => if String.eqb k k' then Some v else own o' k
  end.

Definition get (o : obj) (k : string) : value :=
  match own o k with
  | Some v => v
  | None => inherited k
  end.

Fixpoint put (o : obj) (k : string) (v : value) : obj :=
  match o with
  | [] => [(k, v)]
  | (k', v') :: o' =>
      if String.eqb k k' then (k', v) :: o' else (k', v') :: put o' k v
  end.

Definition set (o : obj) (k : string) (v : value) : obj :=
  if String.eqb k "__proto__" then o else put o k v.

Definition keys (o : obj) : list string := map fst o.

Definition count_term (o : obj) (term : string) : obj :=
  set o term (plus_one (or_else (get o term) (VNum 0))).

Definition termDocFreq (documents : list Document) : obj :=
  fold_left
    (fun freq d =>
       fold_left count_term (new_Set (tokenize (Some (content_or_empty d)))) freq)
    documents [].

Definition termFreq (terms : list string) : obj := fold_left count_term terms [].

Record IndexedDocument : Type := mkIndexed {
  doc : Document;
  tfidf : obj
}.

Record ScoredDocument : Type := mkScored {
  indexed : IndexedDocument;
  score : float
}.

Definition tfidf_entry (Math_log : float -> float) (documents : list Document)
    (freq_all : obj) (terms : list string) (freq : obj) (acc : obj)
    (term : string) : obj :=
  let tf := to_number (get freq term) / of_nat (Nat.max 1 (length terms)) in
  let idf := Math_log (of_nat (docCount documents)
                       / to_number (or_else (get freq_all term) (VNum 1))) in
  set acc term (VNum (tf * idf)).

Definition calculateTFIDF (Math_log : float -> float) (documents : list Document)
  : list IndexedDocument :=
  let freq_all := termDocFreq documents in
  map (fun d =>
         let terms := tokenize (Some (content_or_empty d)) in
         let freq := termFreq terms in
         mkIndexed d
           (fold_left (tfidf_entry Math_log documents freq_all terms freq)
                      (keys freq) []))
      documents.

Definition cosine_step (vec1 vec2 : obj) (acc : float * float * float)
    (term : string) : float * float * float :=
  let '(dotProduct, mag1, mag2) := acc in
  let v1 := or_else (get vec1 term) (VNum 0) in
  let v2 := or_else (get vec2 term) (VNum 0) in
  (dotProduct + times v1 v2, mag1 + times v1 v1, mag2 + times v2 v2).

Definition cosineSimilarity (vec1 vec2 : obj) : float :=
  let '(dotProduct, mag1, mag2) :=
    fold_left (cosine_step vec1 vec2) (new_Set (keys vec1 ++ keys vec2)) (0, 0, 0) in
  let denom := sqrt mag1 * sqrt mag2 in
  if denom =? 0 then 0 else dotProduct / denom.

Definition queryVec (queryTerms : list string) : obj :=
  fold_left count_term queryTerms [].

(** [x > 0] *)
Definition positive (x : float) : bool := 0 <? x.

(** [b.score - a.score > 0] *)
Definition lower_score (a b : ScoredDocument) : bool :=
  positive (score b - score a).

Definition scored (documents : list IndexedDocument) (qv : obj)
  : list ScoredDocument :=
  map (fun d => mkScored d (cosineSimilarity qv (tfidf d))) documents.

Definition relevant (documents : list IndexedDocument) (qv : obj)
  : list ScoredDocument :=
  filter (fun d => positive (score d)) (scored documents qv).

(** [retrieve] on [this.documents]. *)
Definition retrieve (documents : list IndexedDocument) (query : option string)
    (topK : Z) : list ScoredDocument :=
  match query with
  | None => []
  | Some q =>
      if String.eqb q EmptyString || String.eqb (trim q) EmptyString then []
      else
        let queryTerms := tokenize query in
        match queryTerms with
        | [] => []
        | _ => slice0 topK (sort lower_score (relevant documents (queryVec queryTerms)))
        end
  end.

(** The values of [Math.log] at 1, 2 and 3: [+0], as the language requires,
    and the binary64 numbers nearest to ln 2 (the constant [Math.LN2]) and
    to ln 3, which the implementations in use return.  The scenarios of this
    development ask for no other value. *)
Definition log_1_2_3 (x : float) : float :=
  if x =? 1 then 0
  else if x =? 2 then 0x1.62e42fefa39efp-1
  else if x =? 3 then 0x1.193ea7aad030bp+0
  else nan.

(** The number next above 1; it prints as 1.0000000000000002. *)
Definition one_plus_ulp : float := 0x1.0000000000001p+0.

(** [x > y] *)
Definition above (x y : float) : bool := y <? x.

End Binary64.

(** ** The specification's formulas *)

Module Spec.

(** Splitting at every character that satisfies [sep]. *)
Fixpoint split_on (sep : ascii -> bool) (s : string) : list string :=
  match s with
  | EmptyString => [EmptyString]
  | String c s' =>
      if sep c then EmptyString :: split_on sep s'
      else match split_on sep s' with
           | [] => [String c EmptyString]
           | w :: ws => String c w :: ws
           end
  end.

Definition nonempty (s : string) : bool := negb (String.eqb s EmptyString).

(** The words of a string: its maximal runs of characters that are not
    white space. *)
Definition words (s : string) : list string :=
  filter nonempty (split_on is_space s).

(** [normalize], step by step as the specification words it. *)
Definition normalize (text : option string) : list string :=
  match text with
  | None => []
  | Some s =>
      let lowered := toLowerCase s in
      let replaced := replace_non_word lowered in
      let collapsed := collapse_spaces replaced in
      let trimmed := trim collapsed in
      filter (fun w => negb (Nat.leb (String.length w) 2)) (words trimmed)
  end.

Definition terms_of (d : Document) : list string := normalize (content d).

(** Occurrences of [t] among [terms]. *)
Definition occurrences (t : string) (terms : list string) : nat :=
  count_occ string_dec terms t.

(** [tf(t, d)] *)
Definition tf (t : string) (d : Document) : R :=
  (INR (occurrences t (terms_of d)) / INR (Nat.max 1 (length (terms_of d))))%R.

(** [df(t)]: the number of documents whose term set contains [t]. *)
Definition df (t : string) (docs : list Document) : nat :=
  length (filter (fun d => existsb (String.eqb t) (terms_of d)) docs).

(** [N], taken as 1 for the empty collection. *)
Definition N (docs : list Document) : nat := Nat.max 1 (length docs).

(** [idf(t)] *)
Definition idf (t : string) (docs : list Document) : R :=
  ln (INR (N docs) / INR (df t docs)).

Definition weight (t : string) (d : Document) (docs : list Document) : R :=
  (tf t d * idf t docs)%R.

End Spec.

(** ** Scenarios *)

Module Scenario.

Definition document (n : Z) (text : string) : Document :=
  mkDocument n "untitled" (Some text) "2024-01-01T00:00:00.000Z".

Definition doc1 : Document := document 1 "ML is a subset of AI".
Definition doc2 : Document := document 2 "Cats are mammals".
Definition doc3 : Document := document 3 "Deep learning is part of machine learning".

Definition collection : list Document := [doc1; doc2; doc3].

Definition engine : RetrievalEngine := new_RetrievalEngine (Some collection).

Definition query : option string := Some "machine learning".

(** One document that repeats the terms of [query]. *)
Definition echo : Document := document 1 "machine learning machine learning".

Definition echo_engine : RetrievalEngine := new_RetrievalEngine (Some [echo]).

(** Documents and a query that hold the word [constructor]. *)
Definition ctor1 : Document := document 1 "constructor pattern".
Definition ctor2 : Document := document 2 "cats are mammals".
Definition ctor_collection : list Document := [ctor1; ctor2].
Definition ctor_query : option string := Some "what is a constructor".

(** Six distinct terms, asked for with the same six terms. *)
Definition six : Document := document 1 "aaa bbb ccc ddd eee fff".
Definition other : Document := document 2 "zzz".
Definition six_collection : list Document := [six; other].
Definition six_query : option string := Some "aaa bbb ccc ddd eee fff".

End Scenario.

(** ** Auxiliary predicates *)

Fixpoint string_forall (p : ascii -> bool) (s : string) : bool :=
  match s with
  | EmptyString => true
  | String c s' => p c && string_forall p s'
  end.

(** The characters a term can hold: lower-case letters, digits and the
    underscore. *)
Definition term_char (c : ascii) : bool :=
  let n := code c in
  (((97 <=? n) && (n <=? 122)) || ((48 <=? n) && (n <=? 57)) || (n =? 95))%N.

(** Every white-space character of the string is the space itself. *)
Definition only_plain_spaces (s : string) : bool :=
  string_forall (fun c => negb (is_space c) || Ascii.eqb c space) s.

(** The characters of a preprocessed text: term characters and single
    spaces. *)
Definition term_or_space (c : ascii) : bool := term_char c || Ascii.eqb c space.

(** The own property [t] of [o] holds the count [n]; no property for 0. *)
Definition counted (o : Obj.t) (t : string) (n : nat) : Prop :=
  match n with
  | O => Obj.own o t = None
  | S _ => Obj.own o t = Some (VNum (Num.of_nat n))
  end.

(** The number that [calculateTFIDF] stores under [term]. *)
Definition stored_weight (documents : list Document) (freq_all : Obj.t)
    (terms : list string) (freq : Obj.t) (term : string) : num :=
  Num.mul
    (Num.div (to_number (Obj.get freq term)) (Num.of_nat (Nat.max 1 (length terms))))
    (Num.log (Num.div (Num.of_nat (docCount documents))
                      (to_number (or_else (Obj.get freq_all term) (VNum Num.one))))).

(** The weight vector that [calculateTFIDF] attaches to [d]. *)
Definition tfidf_of (documents : list Document) (d : Document) : Obj.t :=
  let terms := tokenize (Some (content_or_empty d)) in
  fold_left (tfidf_entry documents (termDocFreq documents) terms (termFreq terms))
            (Obj.keys (termFreq terms)) Obj.empty.

(** The number that [cosineSimilarity] reads for [term]:
    [vec[term] || 0], converted by the multiplication. *)
Definition weight_at (vec : Obj.t) (term : string) : num :=
  to_number (or_else (Obj.get vec term) (VNum Num.zero)).

(** The sums of [cosineSimilarity] are finite and satisfy the inequality of
    Cauchy and Schwarz, or the dot product is [NaN]. *)
Definition sums_bounded (acc : num * num * num) : Prop :=
  match acc with
  | (Fin d, Fin a, Fin b) => (d * d <= a * b /\ 0 <= a /\ 0 <= b)%R
  | (NaN, _, _) => True
  | (Fin _, _, _) => False
  end.





(** The documents that [retrieve] keeps after the filter [score > 0], in
    the order of the collection. *)
Definition relevant (this : RetrievalEngine) (qv : Obj.t) : list ScoredDocument :=
  filter (fun d => Num.positive (score d)) (scored this qv).

(** [vec] contributes nothing under [term]: the number read is 0 or [NaN]. *)
Definition null_at (vec : Obj.t) (term : string) : Prop :=
  weight_at vec term = Fin 0%R \/ weight_at vec term = NaN.

(** The own property [t] of [o], if any, is the text of an inherited
    object. *)
Definition tainted (o : Obj.t) (t : string) : Prop :=
  Obj.own o t = None \/ Obj.own o t = Some VObjText.

(** Two lists of pieces with the same first piece and the same non-empty
    later pieces. *)
Definition same_pieces (l l' : list string) : Prop :=
  exists w ws ws', l = w :: ws /\ l' = w :: ws'
                   /\ filter Spec.nonempty ws = filter Spec.nonempty ws'.

(** A key that [Object.prototype] does not define. *)
Definition plain (k : string) : Prop := Obj.inherited k = VUndefined.

(** ** Further predicates *)

(** No white space follows white space, and every white-space character is
    the space itself; [after_space] tells that the previous character was
    white space. *)
Fixpoint single_spaced (after_space : bool) (s : string) : bool :=
  match s with
  | EmptyString => true
  | String c s' =>
      if is_space c
      then negb after_space && Ascii.eqb c space && single_spaced true s'
      else single_spaced false s'
  end.


(** [sub] occurs in [s]. *)
Definition occurs_in (sub s : string) : Prop :=
  exists before after, s = String.append before (String.append sub after).

(** ** The chat application *)

(** The component [RAGChatbotSystem] and its children, as transitions on the
    state that [useState] holds.  A state update [setX((prev) => ...)] is
    the function applied to the state; the clock ([Date.now()] and
    [new Date().toISOString()]) and the outcome of [fetch] are arguments. *)
Module App.

Local Open Scope string_scope.

(** A JavaScript template [${n}] of a non-negative integer. *)
Definition decimal (n : nat) : string := NilZero.string_of_uint (Nat.to_uint n).

Definition newline : string := String (ascii_of_nat 10) EmptyString.

(** A message of the conversation: [{ role, content, retrievedDocs, status,
    statusMessage }], the last three optional. *)
Record Message : Type := mkMessage {
  role : string;
  text : string;
  retrievedDocs : option (list ScoredDocument);
  status : option string;
  statusMessage : option string
}.

Record State : Type := mkState {
  documents : list Document;
  messages : list Message;
  isProcessing : bool;
  isSidebarOpen : bool;
  isMobile : bool
}.

(** [handleAddDocument] of the application. *)
Definition handleAddDocument (d : Document) (st : State) : State :=
  mkState (documents st ++ [d]) (messages st) (isProcessing st)
          (if isMobile st then false else isSidebarOpen st) (isMobile st).

(** [handleDeleteDocument]: [prev.filter((doc) => doc.id !== id)]. *)
Definition handleDeleteDocument (id : Z) (st : State) : State :=
  mkState (filter (fun d => negb (Z.eqb (doc_id d) id)) (documents st))
          (messages st) (isProcessing st) (isSidebarOpen st) (isMobile st).

(** The state of the component [DocumentManager]. *)
Record Form : Type := mkForm {
  newDocTitle : string;
  newDocContent : string;
  isAdding : bool
}.

(** [!s.trim()] *)
Definition blank (s : string) : bool := String.eqb (trim s) EmptyString.

(** [handleAddDocument] of [DocumentManager]: the new state of the form and
    the document handed to [onAddDocument], if any. *)
Definition form_handleAddDocument (now : Z) (iso : string) (f : Form)
  : Form * option Document :=
  if blank (newDocTitle f) || blank (newDocContent f) then (f, None)
  else (mkForm EmptyString EmptyString false,
        Some (mkDocument now (newDocTitle f) (Some (newDocContent f)) iso)).

(** A click on "Save Document": the form, then the application. *)
Definition save_document (now : Z) (iso : string) (f : Form) (st : State)
  : Form * State :=
  match form_handleAddDocument now iso f with
  | (f', Some d) => (f', handleAddDocument d st)
  | (f', None) => (f', st)
  end.

(** [handleSend] of [ChatInterface]: the new input and the text handed to
    [onSendMessage], if any. *)
Definition handleSend (input : string) (processing : bool) : string * option string :=
  if blank input || processing then (input, None) else (EmptyString, Some input).

(** The body of the request to the back end. *)
Record ChatMessage : Type := mkChatMessage {
  chat_role : string;
  chat_content : string
}.

Record Request : Type := mkRequest {
  model : string;
  request_messages : list ChatMessage
}.

(** What [await fetch(...)] and the reading of the response come to:
    a rejection of [fetch], [response.text()] or [response.json()] with an
    error of some message; a response that is not [ok], with its status and
    body text; or the parsed body, of which the code looks at the truth of
    [data.success] and at [data.content], a string as the back end sends it
    ([None] when absent).  A body that is no object makes [data.success]
    throw and falls under the first case. *)
Inductive FetchResult : Type :=
| Rejected (message : string)
| NotOk (http_status : nat) (errorBody : string)
| Parsed (data_success : bool) (data_content : option string).

Definition user_message (query : string) : Message :=
  mkMessage "user" query None None None.

Definition no_documents_message : Message :=
  mkMessage "assistant" "Please add some documents to the knowledge base first."
            None (Some "error") (Some "No documents available").

Definition not_found_message : Message :=
  mkMessage "assistant"
    "I couldn't find any relevant documents for your question. Try rephrasing or adding more documents."
    None (Some "warning") (Some "No relevant documents found").

Definition error_message (message : string) : Message :=
  mkMessage "assistant"
    "Sorry, I encountered an error processing your request. Please check your backend server console."
    None (Some "error") (Some message).

(** [${doc.content}] *)
Definition shown_content (d : Document) : string :=
  match content d with
  | Some c => c
  | None => "undefined"
  end.

(** [Array.prototype.join] *)
Fixpoint join (sep : string) (l : list string) : string :=
  match l with
  | [] => EmptyString
  | [x] => x
  | x :: l' => x ++ sep ++ join sep l'
  end.

Definition context (retrieved : list ScoredDocument) : string :=
  join (newline ++ newline ++ "---" ++ newline ++ newline)
       (map (fun r => "Document: " ++ title (doc (indexed r)) ++ newline
                      ++ "Content: " ++ shown_content (doc (indexed r)))
            retrieved).

Definition prompt (retrieved : list ScoredDocument) (query : string) : string :=
  "You are a helpful assistant. Answer the user's question based ONLY on the following context. If the answer cannot be found in the context, say so."
  ++ newline ++ newline ++ "Context:" ++ newline ++ context retrieved
  ++ newline ++ newline ++ "Question: " ++ query ++ newline ++ newline
  ++ "Provide a clear, concise answer based on the context provided.".

Definition request (retrieved : list ScoredDocument) (query : string) : Request :=
  mkRequest "gemini-1.5-flash" [mkChatMessage "user" (prompt retrieved query)].

(** The part of [handleSendMessage] before [await fetch]: the new state
    and, when the back end is asked, the request and the retrieved
    documents. *)
Definition before_fetch (query : option string) (st : State)
  : State * option (Request * list ScoredDocument) :=
  match query with
  | None => (st, None)
  | Some q =>
      if String.eqb q EmptyString || blank q then (st, None)
      else
        match documents st with
        | [] =>
            (mkState (documents st)
                     (messages st ++ [user_message q; no_documents_message])
                     (isProcessing st) (isSidebarOpen st) (isMobile st),
             None)
        | _ =>
            let retrieved :=
              retrieve (new_RetrievalEngine (Some (documents st))) query 3 in
            match retrieved with
            | [] =>
                (mkState (documents st)
                         (messages st ++ [user_message q] ++ [not_found_message])
                         false (isSidebarOpen st) (isMobile st),
                 None)
            | _ =>
                (mkState (documents st) (messages st ++ [user_message q])
                         true (isSidebarOpen st) (isMobile st),
                 Some (request retrieved q, retrieved))
            end
        end
  end.

(** The message that the rest of [handleSendMessage] appends. *)
Definition reply (retrieved : list ScoredDocument) (r : FetchResult) : Message :=
  match r with
  | Rejected message => error_message message
  | NotOk http_status errorBody =>
      error_message ("Server error: " ++ decimal http_status ++ " - " ++ errorBody)
  | Parsed data_success data_content =>
      match data_success, data_content with
      | true, Some (String c s) =>
          mkMessage "assistant" (String c s) (Some retrieved) (Some "success")
                    (Some ("Retrieved " ++ decimal (length retrieved)
                           ++ " relevant documents"))
      | _, _ => error_message "Invalid response format from server"
      end
  end.

(** The part of [handleSendMessage] after [await fetch], with its
    [finally]. *)
Definition after_fetch (retrieved : list ScoredDocument) (r : FetchResult)
    (st : State) : State :=
  mkState (documents st) (messages st ++ [reply retrieved r]) false
          (isSidebarOpen st) (isMobile st).

(** [handleSendMessage], run to its end; [fetch] answers the request. *)
Definition handleSendMessage (fetch : Request -> FetchResult)
    (query : option string) (st : State) : State :=
  match before_fetch query st with
  | (st', None) => st'
  | (st', Some (req, retrieved)) => after_fetch retrieved (fetch req) st'
  end.

(** A click on the send button: [handleSend], then [handleSendMessage]. *)
Definition send (fetch : Request -> FetchResult) (input : string) (st : State)
  : string * State :=
  match handleSend input (isProcessing st) with
  | (input', Some q) => (input', handleSendMessage fetch (Some q) st)
  | (input', None) => (input', st)
  end.

(** The first state: no saved documents, one sample document. *)
Definition sample_document (iso : string) : Document :=
  mkDocument 1 "Introduction to Machine Learning"
    (Some "Machine Learning is a subset of artificial intelligence that enables systems to learn and improve from experience without being explicitly programmed.")
    iso.

Definition initial (iso : string) (mobile : bool) : State :=
  mkState [sample_document iso] [] false false mobile.

End App.

(** ** The back end *)

(** The handler of [POST /api/chat].  The call of the generative model is an
    argument: it answers a prompt with a text or fails with an error. *)
Module Server.

Definition MODEL_NAME : string := "gemini-2.5-flash".

Inductive Generation : Type :=
| Generated (text : string)
| Failed (message : string).

(** [req.body], a parsed JSON object whose [messages], when present, is an
    array of messages as the front end sends them; the field may be absent,
    and other fields are not read. *)
Record Body : Type := mkBody {
  body_model : option string;
  body_messages : option (list App.ChatMessage)
}.

(** The status and the JSON object of the response. *)
Inductive Response : Type :=
| BadRequest (error : string)
| Success (model : string) (content : string)
| ServerError (error : string) (details : string).



Definition chat (generate : string -> Generation) (body : Body) : Response :=
  match body_messages body with
  | None => BadRequest "No messages provided"
  | Some [] => BadRequest "No messages provided"
  | Some (m :: ms) =>
      let prompt := App.chat_content (last ms m) in
      match generate prompt with
      | Generated text => Success MODEL_NAME text
      | Failed message => ServerError "Gemini Request Failed" message
      end
  end.

End Server.

(** ** The script that tries the API key *)

Module Script.

Local Open Scope string_scope.

(** A model of the list that the API returns: [supportedGenerationMethods]
    may be absent. *)
Record ModelInfo : Type := mkModelInfo {
  name : string;
  supportedGenerationMethods : option (list string)
}.

(** [m.supportedGenerationMethods?.includes('generateContent')] *)
Definition supports_generation (m : ModelInfo) : bool :=
  match supportedGenerationMethods m with
  | Some methods => existsb (String.eqb "generateContent") methods
  | None => false
  end.

Definition validModels (models : list ModelInfo) : list ModelInfo :=
  filter supports_generation models.

(** [s.replace(pattern, '')] for a string [pattern]: the first occurrence
    of [pattern] is taken out. *)
Fixpoint remove_first (pattern s : string) : string :=
  if String.prefix pattern s
  then String.substring (String.length pattern)
                        (String.length s - String.length pattern) s
  else match s with
       | EmptyString => EmptyString
       | String c s' => String c (remove_first pattern s')
       end.

(** [name.replace('models/', '')] *)
Definition short_name (m : ModelInfo) : string := remove_first "models/" (name m).

(** The model that the script tries: [validModels[0]], if there is one. *)
Definition testModel (models : list ModelInfo) : option string :=
  match validModels models with
  | [] => None
  | m :: _ => Some (short_name m)
  end.

End Script.

(** ** Properties of the text normalizer *)

Section Normalizer.

Lemma lower_char_term (c : ascii) :
  is_word (lower_char c) = true -> term_char (lower_char c) = true.
Proof.
  destruct c as [[] [] [] [] [] [] [] []]; vm_compute; congruence.
Qed.

Lemma replaced_char_cases (c : ascii) :
  let c' := (if is_word (lower_char c) || is_space (lower_char c)
             then lower_char c else space) in
  term_char c' = true \/ is_space c' = true.
Proof.
  destruct c as [[] [] [] [] [] [] [] []]; vm_compute; auto.
Qed.

Lemma is_space_space : is_space space = true.
Proof. reflexivity. Qed.

Lemma not_space_neq (c : ascii) : is_space c = false -> Ascii.eqb c space = false.
Proof.
  intros H. destruct (Ascii.eqb_spec c space) as [->|]; [|reflexivity].
  rewrite is_space_space in H. discriminate.
Qed.

Lemma term_char_not_space (c : ascii) : term_char c = true -> is_space c = false.
Proof.
  destruct c as [[] [] [] [] [] [] [] []]; vm_compute; congruence.
Qed.

Lemma string_forall_trimStart p s :
  string_forall p s = true -> string_forall p (trimStart s) = true.
Proof.
  induction s as [|c s IH]; simpl; [auto|].
  intros H. apply andb_true_iff in H as [Hc Hs].
  destruct (is_space c); [auto|]. simpl. now rewrite Hc, Hs.
Qed.

Lemma string_forall_trimEnd p s :
  string_forall p s = true -> string_forall p (trimEnd s) = true.
Proof.
  induction s as [|c s IH]; [auto|].
  intros H. simpl in H. apply andb_true_iff in H as [Hc Hs].
  change (trimEnd (String c s))
    with (if all_space (String c s) then EmptyString else String c (trimEnd s)).
  destruct (all_space (String c s)); [reflexivity|].
  simpl. now rewrite Hc, IH.
Qed.

Lemma string_forall_trim p s :
  string_forall p s = true -> string_forall p (trim s) = true.
Proof.
  intros H. unfold trim. now apply string_forall_trimEnd, string_forall_trimStart.
Qed.

Lemma collapse_from_plain_spaces b s :
  only_plain_spaces (collapse_from b s) = true.
Proof.
  unfold only_plain_spaces. revert b.
  induction s as [|c s IH]; intros b; simpl; [reflexivity|].
  destruct (is_space c) eqn:Hc.
  - destruct b; simpl; auto.
  - simpl. rewrite Hc. simpl. apply IH.
Qed.

Lemma split_on_plain_spaces s :
  only_plain_spaces s = true -> Spec.split_on is_space s = split_space s.
Proof.
  unfold only_plain_spaces.
  induction s as [|c s IH]; simpl; [reflexivity|].
  intros H. apply andb_true_iff in H as [Hc Hs].
  rewrite (IH Hs).
  destruct (is_space c) eqn:Hsp; simpl in Hc.
  - now rewrite Hc.
  - now rewrite (not_space_neq c Hsp).
Qed.

Lemma filter_long_nonempty (l : list string) :
  filter (fun w => negb (Nat.leb (String.length w) 2)) (filter Spec.nonempty l)
  = filter (fun word => Nat.ltb 2 (String.length word)) l.
Proof.
  induction l as [|w l IH]; simpl; [reflexivity|].
  destruct w as [|c w]; [exact IH|].
  cbn [Spec.nonempty String.eqb negb filter].
  rewrite IH, Nat.ltb_antisym. reflexivity.
Qed.

(** [tokenize] computes the normalization that the specification words. *)
Lemma tokenize_normalize (text : option string) :
  tokenize text = Spec.normalize text.
Proof.
  destruct text as [s|]; [|reflexivity].
  unfold tokenize, Spec.normalize, Spec.words.
  destruct (String.eqb_spec s EmptyString) as [->|Hne]; [reflexivity|].
  rewrite filter_long_nonempty. unfold preprocessText.
  rewrite split_on_plain_spaces; [reflexivity|].
  apply string_forall_trim. apply collapse_from_plain_spaces.
Qed.

Lemma collapse_from_term_or_space b s :
  string_forall term_or_space
    (collapse_from b (replace_non_word (toLowerCase s))) = true.
Proof.
  revert b. induction s as [|c s IH]; intros b; [reflexivity|].
  unfold replace_non_word, toLowerCase in *. simpl.
  pose proof (replaced_char_cases c) as Hc. simpl in Hc.
  set (c' := if is_word (lower_char c) || is_space (lower_char c)
             then lower_char c else space) in *.
  destruct (is_space c') eqn:Hsp.
  - destruct b; simpl; auto.
  - destruct Hc as [Hc|Hc]; [|congruence].
    simpl. unfold term_or_space at 1. rewrite Hc. simpl. apply IH.
Qed.

Lemma split_space_terms s :
  string_forall term_or_space s = true ->
  Forall (fun w => string_forall term_char w = true) (split_space s).
Proof.
  induction s as [|c s IH]; simpl.
  - intros _. constructor; [reflexivity|constructor].
  - intros H. apply andb_true_iff in H as [Hc Hs]. specialize (IH Hs).
    destruct (Ascii.eqb c space) eqn:Heq.
    + constructor; [reflexivity|exact IH].
    + unfold term_or_space in Hc. rewrite Heq, orb_false_r in Hc.
      destruct (split_space s) as [|w ws]; constructor; simpl.
      * now rewrite Hc.
      * constructor.
      * inversion IH; subst. now rewrite Hc.
      * now inversion IH.
Qed.

(** A term is longer than two characters and holds only lower-case
    letters, digits and underscores. *)
Lemma tokenize_terms (text : option string) (t : string) :
  In t (tokenize text) ->
  2 < String.length t /\ string_forall term_char t = true.
Proof.
  destruct text as [s|]; [|intros []].
  unfold tokenize. destruct (String.eqb s EmptyString); [intros []|].
  intros H. apply filter_In in H as [Hin Hlen].
  split; [now apply Nat.ltb_lt|].
  pose proof (split_space_terms (preprocessText s)) as HF.
  rewrite Forall_forall in HF. apply HF; [|exact Hin].
  unfold preprocessText. apply string_forall_trim, collapse_from_term_or_space.
Qed.

(** Among the names of [Object.prototype] a term can only be [constructor]
    or [__proto__]: every other name has a capital letter. *)
Lemma term_plain (t : string) :
  string_forall term_char t = true ->
  t <> "constructor" -> t <> "__proto__" -> plain t.
Proof.
  intros Hch H1 H2. unfold plain, Obj.inherited.
  destruct (existsb (String.eqb t) Obj.prototype_names) eqn:He; [|reflexivity].
  apply existsb_exists in He as [k [Hk Heq]].
  apply String.eqb_eq in Heq. subst k.
  simpl in Hk.
  repeat (destruct Hk as [Hk|Hk];
          [subst t; try congruence; vm_compute in Hch; discriminate|]).
  destruct Hk.
Qed.

Lemma tokenize_plain (text : option string) (t : string) :
  In t (tokenize text) -> t <> "constructor" -> t <> "__proto__" -> plain t.
Proof.
  intros Hin. apply term_plain. now apply (tokenize_terms text).
Qed.

(** Collapsing and trimming do not change the words of a string. *)
Lemma split_on_cons sep c s :
  sep c = false ->
  exists w ws, Spec.split_on sep s = w :: ws
               /\ Spec.split_on sep (String c s) = String c w :: ws.
Proof.
  intros Hc. simpl. rewrite Hc.
  destruct (Spec.split_on sep s) as [|w ws] eqn:Hs.
  - destruct s; simpl in Hs; [discriminate|].
    destruct (sep a); [discriminate|]. destruct (Spec.split_on sep s); discriminate.
  - now exists w, ws.
Qed.

Lemma split_on_not_nil sep s : Spec.split_on sep s <> [].
Proof.
  destruct s as [|c s]; simpl; [discriminate|].
  destruct (sep c); [discriminate|].
  destruct (Spec.split_on sep s); discriminate.
Qed.

Lemma words_space c s : is_space c = true -> Spec.words (String c s) = Spec.words s.
Proof. intros Hc. unfold Spec.words. simpl. now rewrite Hc. Qed.

Lemma words_all_space s : all_space s = true -> Spec.words s = [].
Proof.
  induction s as [|c s IH]; [reflexivity|].
  simpl. intros H. apply andb_true_iff in H as [Hc Hs].
  rewrite (words_space c s Hc). now apply IH.
Qed.

Lemma words_trimStart s : Spec.words (trimStart s) = Spec.words s.
Proof.
  induction s as [|c s IH]; [reflexivity|].
  simpl. destruct (is_space c) eqn:Hc; [|reflexivity].
  now rewrite (words_space c s Hc).
Qed.

Lemma same_pieces_words l l' :
  same_pieces l l' -> filter Spec.nonempty l = filter Spec.nonempty l'.
Proof.
  intros [w [ws [ws' [-> [-> H]]]]]. simpl. now rewrite H.
Qed.

Lemma same_pieces_cons c s s' :
  is_space c = false ->
  same_pieces (Spec.split_on is_space s) (Spec.split_on is_space s') ->
  same_pieces (Spec.split_on is_space (String c s))
              (Spec.split_on is_space (String c s')).
Proof.
  intros Hc [w [ws [ws' [H1 [H2 H]]]]]. simpl. rewrite Hc, H1, H2.
  now exists (String c w), ws, ws'.
Qed.

Lemma same_pieces_space c c' s s' :
  is_space c = true -> is_space c' = true ->
  Spec.words s = Spec.words s' ->
  same_pieces (Spec.split_on is_space (String c s))
              (Spec.split_on is_space (String c' s')).
Proof.
  intros Hc Hc' H. simpl. rewrite Hc, Hc'.
  now exists EmptyString, (Spec.split_on is_space s), (Spec.split_on is_space s').
Qed.

Lemma split_on_trimEnd s :
  same_pieces (Spec.split_on is_space (trimEnd s)) (Spec.split_on is_space s).
Proof.
  induction s as [|c s IH].
  - now exists EmptyString, [], [].
  - change (trimEnd (String c s))
      with (if all_space (String c s) then EmptyString else String c (trimEnd s)).
    destruct (all_space (String c s)) eqn:Hall.
    + simpl in Hall. apply andb_true_iff in Hall as [Hc Hs].
      simpl. rewrite Hc.
      exists EmptyString, [], (Spec.split_on is_space s).
      repeat split. symmetry. now apply words_all_space.
    + destruct (is_space c) eqn:Hc.
      * apply same_pieces_space; try assumption.
        now apply same_pieces_words.
      * now apply same_pieces_cons.
Qed.

Lemma words_trimEnd s : Spec.words (trimEnd s) = Spec.words s.
Proof. apply same_pieces_words, split_on_trimEnd. Qed.

Lemma words_trim s : Spec.words (trim s) = Spec.words s.
Proof. unfold trim. now rewrite words_trimEnd, words_trimStart. Qed.

Lemma split_on_collapse s :
  Spec.words (collapse_from true s) = Spec.words s
  /\ same_pieces (Spec.split_on is_space (collapse_from false s))
                 (Spec.split_on is_space s).
Proof.
  induction s as [|c s [IHt IHf]].
  - split; [reflexivity|now exists EmptyString, [], []].
  - cbn [collapse_from]. destruct (is_space c) eqn:Hc.
    + split.
      * now rewrite (words_space c s Hc).
      * apply same_pieces_space; auto using is_space_space.
    + assert (same_pieces (Spec.split_on is_space (String c (collapse_from false s)))
                          (Spec.split_on is_space (String c s))) as H
          by now apply same_pieces_cons.
      split; [now apply same_pieces_words|exact H].
Qed.

Lemma words_collapse s : Spec.words (collapse_spaces s) = Spec.words s.
Proof. apply same_pieces_words, split_on_collapse. Qed.

(** The terms of a text are the words of its lower-cased, replaced form
    that are longer than two characters. *)
Lemma normalize_words s :
  Spec.normalize (Some s)
  = filter (fun w => negb (Nat.leb (String.length w) 2))
           (Spec.words (replace_non_word (toLowerCase s))).
Proof.
  unfold Spec.normalize. now rewrite words_trim, words_collapse.
Qed.

Example tokenize_sentence :
  tokenize (Some "Deep learning is part of machine learning")
  = ["deep"; "learning"; "part"; "machine"; "learning"].
Proof. reflexivity. Qed.

Example tokenize_short_words : tokenize (Some "ML is a subset of AI") = ["subset"].
Proof. reflexivity. Qed.

Example tokenize_punctuation :
  tokenize (Some "  Hello,   WORLD!! it's 2024_x. ") = ["hello"; "world"; "2024_x"].
Proof. reflexivity. Qed.

End Normalizer.

(** ** Properties of objects used as dictionaries *)

Section Dictionaries.

Lemma own_put_same o k v : Obj.own (Obj.put o k v) k = Some v.
Proof.
  induction o as [|[k' v'] o IH]; simpl.
  - now rewrite String.eqb_refl.
  - destruct (String.eqb_spec k k') as [->|Hne]; simpl.
    + now rewrite String.eqb_refl.
    + destruct (String.eqb_spec k k'); [contradiction|exact IH].
Qed.

Lemma own_put_other o k v k' :
  k <> k' -> Obj.own (Obj.put o k v) k' = Obj.own o k'.
Proof.
  intros Hne. induction o as [|[k0 v0] o IH]; simpl.
  - destruct (String.eqb_spec k' k); [congruence|reflexivity].
  - destruct (String.eqb_spec k k0) as [->|Hk]; simpl.
    + destruct (String.eqb_spec k' k0); [congruence|reflexivity].
    + destruct (String.eqb_spec k' k0); [reflexivity|exact IH].
Qed.

Lemma own_set_same o k v :
  k <> "__proto__" -> Obj.own (Obj.set o k v) k = Some v.
Proof.
  intros Hk. unfold Obj.set.
  destruct (String.eqb_spec k "__proto__"); [contradiction|apply own_put_same].
Qed.

Lemma own_set_other o k v k' :
  k <> k' -> Obj.own (Obj.set o k v) k' = Obj.own o k'.
Proof.
  intros Hne. unfold Obj.set.
  destruct (String.eqb k "__proto__"); [reflexivity|now apply own_put_other].
Qed.

Lemma set_proto o v : Obj.set o "__proto__" v = o.
Proof. reflexivity. Qed.

Lemma own_keys o k : In k (Obj.keys o) <-> Obj.own o k <> None.
Proof.
  unfold Obj.keys. induction o as [|[k' v'] o IH]; simpl.
  - split; [intros []|congruence].
  - destruct (String.eqb_spec k k') as [->|Hne].
    + split; [congruence|auto].
    + rewrite <- IH. split; [intros [H|H]; [congruence|exact H]|auto].
Qed.

Lemma keys_set o k v k' :
  In k' (Obj.keys (Obj.set o k v))
  <-> In k' (Obj.keys o) \/ (k' = k /\ k <> "__proto__").
Proof.
  rewrite !own_keys.
  destruct (string_dec k k') as [<-|Hne].
  - destruct (string_dec k "__proto__") as [->|Hp].
    + rewrite set_proto. intuition congruence.
    + rewrite own_set_same by exact Hp. split; [auto|congruence].
  - rewrite own_set_other by exact Hne. intuition congruence.
Qed.

Lemma plain_not_proto t : plain t -> t <> "__proto__".
Proof. intros H ->. discriminate H. Qed.

Lemma get_plain_absent o t :
  plain t -> Obj.own o t = None -> Obj.get o t = VUndefined.
Proof. intros Hp Ho. unfold Obj.get. now rewrite Ho. Qed.

Lemma truthy_count n : truthy (VNum (Num.of_nat (S n))) = true.
Proof.
  unfold truthy, Num.of_nat, Num.is_zero.
  destruct (Req_dec_T (INR (S n)) 0) as [H|H]; [|reflexivity].
  exfalso. revert H. apply not_0_INR. discriminate.
Qed.

Lemma plus_one_count n :
  plus_one (VNum (Num.of_nat n)) = VNum (Num.of_nat (S n)).
Proof.
  unfold plus_one, Num.of_nat, Num.add, Num.one. now rewrite S_INR.
Qed.

Lemma counted_bump o t n :
  plain t -> counted o t n ->
  plus_one (or_else (Obj.get o t) (VNum Num.zero)) = VNum (Num.of_nat (S n)).
Proof.
  intros Hp Hc. destruct n as [|n]; simpl in Hc.
  - rewrite (get_plain_absent o t Hp Hc). unfold or_else. simpl.
    apply (plus_one_count 0).
  - unfold Obj.get. rewrite Hc. unfold or_else. rewrite truthy_count.
    apply plus_one_count.
Qed.

Lemma count_term_same o t n :
  plain t -> counted o t n -> counted (count_term o t) t (S n).
Proof.
  intros Hp Hc. unfold count_term. rewrite (counted_bump o t n Hp Hc).
  simpl. apply own_set_same. now apply plain_not_proto.
Qed.

Lemma count_term_other o u t n :
  u <> t -> counted o t n -> counted (count_term o u) t n.
Proof.
  intros Hne Hc. unfold count_term, counted in *.
  rewrite own_set_other by exact Hne. exact Hc.
Qed.

Lemma fold_count_term o l t n :
  plain t -> counted o t n ->
  counted (fold_left count_term l o) t (n + count_occ string_dec l t).
Proof.
  intros Hp. revert o n. induction l as [|u l IH]; intros o n Hc; simpl.
  - now rewrite Nat.add_0_r.
  - destruct (string_dec u t) as [->|Hne].
    + rewrite Nat.add_succ_r. apply (IH _ (S n)). now apply count_term_same.
    + apply IH. now apply count_term_other.
Qed.

(** The counting loops never create the own property [__proto__]. *)
Lemma fold_count_term_proto o l :
  Obj.own o "__proto__" = None ->
  Obj.own (fold_left count_term l o) "__proto__" = None.
Proof.
  revert o. induction l as [|u l IH]; intros o Ho; simpl; [exact Ho|].
  apply IH. unfold count_term.
  destruct (string_dec u "__proto__") as [->|Hne].
  - now rewrite set_proto.
  - now rewrite own_set_other.
Qed.

Lemma fold_count_term_keys o l t :
  In t (Obj.keys (fold_left count_term l o))
  <-> In t (Obj.keys o) \/ (In t l /\ t <> "__proto__").
Proof.
  revert o. induction l as [|u l IH]; intros o; simpl.
  - tauto.
  - rewrite IH. unfold count_term. rewrite keys_set.
    split.
    + intros [[H|[-> H]]|[H1 H2]]; auto.
    + intros [H|[[<-|H1] H2]]; auto.
Qed.

Lemma termFreq_counted terms t :
  plain t -> counted (termFreq terms) t (count_occ string_dec terms t).
Proof.
  intros Hp. apply (fold_count_term Obj.empty terms t 0 Hp). reflexivity.
Qed.

Lemma termFreq_keys terms t :
  In t (Obj.keys (termFreq terms)) <-> In t terms /\ t <> "__proto__".
Proof.
  unfold termFreq. rewrite fold_count_term_keys. simpl. tauto.
Qed.

End Dictionaries.

(** ** Properties of the index *)

Section Index.

Lemma Set_add_In acc x y : In y (Set_add acc x) <-> In y acc \/ y = x.
Proof.
  unfold Set_add. destruct (existsb (String.eqb x) acc) eqn:He.
  - apply existsb_exists in He as [z [Hz Heq]].
    apply String.eqb_eq in Heq. subst z.
    split; [auto|intros [H| ->]; assumption].
  - rewrite in_app_iff. simpl. intuition congruence.
Qed.

Lemma Set_add_NoDup acc x : NoDup acc -> NoDup (Set_add acc x).
Proof.
  intros Hnd. unfold Set_add. destruct (existsb (String.eqb x) acc) eqn:He; [exact Hnd|].
  apply NoDup_app; [exact Hnd|repeat constructor; intros []|].
  intros a Ha [Heq|[]]. subst a.
  assert (existsb (String.eqb x) acc = true); [|congruence].
  apply existsb_exists. exists x. split; [exact Ha|apply String.eqb_refl].
Qed.

Lemma fold_Set_add_In l acc y :
  In y (fold_left Set_add l acc) <-> In y acc \/ In y l.
Proof.
  revert acc. induction l as [|x l IH]; intros acc; simpl; [tauto|].
  rewrite IH, Set_add_In. intuition congruence.
Qed.

Lemma fold_Set_add_NoDup l acc : NoDup acc -> NoDup (fold_left Set_add l acc).
Proof.
  revert acc. induction l as [|x l IH]; intros acc H; simpl; [exact H|].
  apply IH. now apply Set_add_NoDup.
Qed.

Lemma new_Set_In l y : In y (new_Set l) <-> In y l.
Proof. unfold new_Set. rewrite fold_Set_add_In. simpl. tauto. Qed.

Lemma new_Set_NoDup l : NoDup (new_Set l).
Proof. apply fold_Set_add_NoDup. constructor. Qed.

Lemma existsb_eqb_In t l : existsb (String.eqb t) l = true <-> In t l.
Proof.
  rewrite existsb_exists. split.
  - intros [x [Hx Heq]]. apply String.eqb_eq in Heq. now subst.
  - intros H. exists t. split; [exact H|apply String.eqb_refl].
Qed.

Lemma new_Set_count l t :
  count_occ string_dec (new_Set l) t = if existsb (String.eqb t) l then 1 else 0.
Proof.
  pose proof (new_Set_NoDup l) as Hnd.
  rewrite (NoDup_count_occ string_dec) in Hnd. specialize (Hnd t).
  destruct (existsb (String.eqb t) l) eqn:He.
  - apply existsb_eqb_In in He. apply new_Set_In in He.
    apply (count_occ_In string_dec) in He. lia.
  - apply (count_occ_not_In string_dec). rewrite new_Set_In.
    intros H. apply existsb_eqb_In in H. congruence.
Qed.

Lemma terms_of_tokenize d :
  tokenize (Some (content_or_empty d)) = Spec.terms_of d.
Proof.
  unfold Spec.terms_of. rewrite <- tokenize_normalize.
  unfold content_or_empty. destruct (content d); reflexivity.
Qed.

Lemma docCount_N docs : docCount docs = Spec.N docs.
Proof. unfold docCount, Spec.N. destruct (length docs); reflexivity. Qed.

Lemma fold_termDocFreq docs o t n :
  plain t -> counted o t n ->
  counted
    (fold_left
       (fun freq d =>
          fold_left count_term (new_Set (tokenize (Some (content_or_empty d)))) freq)
       docs o)
    t (n + Spec.df t docs).
Proof.
  intros Hp. revert o n. induction docs as [|d docs IH]; intros o n Hc.
  - simpl. now rewrite Nat.add_0_r.
  - cbn [fold_left]. unfold Spec.df. cbn [filter].
    apply (fold_count_term _ (new_Set (tokenize (Some (content_or_empty d)))) t n Hp)
      in Hc.
    rewrite new_Set_count, terms_of_tokenize in Hc.
    rewrite terms_of_tokenize.
    destruct (existsb (String.eqb t) (Spec.terms_of d)).
    + cbn [length]. rewrite Nat.add_succ_r, <- Nat.add_succ_l.
      apply IH. now rewrite Nat.add_1_r in Hc.
    + apply IH. now rewrite Nat.add_0_r in Hc.
Qed.

Lemma termDocFreq_counted docs t :
  plain t -> counted (termDocFreq docs) t (Spec.df t docs).
Proof.
  intros Hp. apply (fold_termDocFreq docs Obj.empty t 0 Hp). reflexivity.
Qed.

Lemma df_positive docs d t :
  In d docs -> In t (Spec.terms_of d) -> 0 < Spec.df t docs.
Proof.
  intros Hd Ht. unfold Spec.df.
  assert (In d (filter (fun d => existsb (String.eqb t) (Spec.terms_of d)) docs)) as H.
  { apply filter_In. split; [exact Hd|now apply existsb_eqb_In]. }
  destruct (filter _ docs); [destruct H|simpl; lia].
Qed.

Lemma df_le_length docs t : Spec.df t docs <= length docs.
Proof. unfold Spec.df. apply filter_length_le. Qed.

Lemma calculateTFIDF_map docs :
  calculateTFIDF docs = map (fun d => mkIndexed d (tfidf_of docs d)) docs.
Proof. reflexivity. Qed.

Lemma div_fin x y : y <> 0%R -> Num.div (Fin x) (Fin y) = Fin (x / y).
Proof. intros H. unfold Num.div. destruct (Req_dec_T y 0); [contradiction|reflexivity]. Qed.

Lemma log_fin x : (0 < x)%R -> Num.log (Fin x) = Fin (ln x).
Proof. intros H. unfold Num.log. destruct (Rlt_dec 0 x); [reflexivity|contradiction]. Qed.

Lemma fold_tfidf_entry_own docs fa terms freq ks acc t :
  (In t ks /\ t <> "__proto__" ->
   Obj.own (fold_left (tfidf_entry docs fa terms freq) ks acc) t
   = Some (VNum (stored_weight docs fa terms freq t)))
  /\ (~ (In t ks /\ t <> "__proto__") ->
      Obj.own (fold_left (tfidf_entry docs fa terms freq) ks acc) t = Obj.own acc t).
Proof.
  revert acc. induction ks as [|k ks IH]; intros acc.
  - simpl. split; [intros [[] _]|reflexivity].
  - cbn [fold_left].
    destruct (IH (tfidf_entry docs fa terms freq acc k)) as [IH1 IH2].
    assert (In t ks /\ t <> "__proto__" \/ ~ (In t ks /\ t <> "__proto__")) as [Hc|Hc].
    { destruct (in_dec string_dec t ks); destruct (string_dec t "__proto__"); tauto. }
    + split; [intros _; now apply IH1|].
      intros H. exfalso. apply H. simpl. tauto.
    + rewrite (IH2 Hc). unfold tfidf_entry. fold (stored_weight docs fa terms freq k).
      destruct (string_dec k t) as [->|Hne].
      * split.
        -- intros [_ Hp]. now apply own_set_same.
        -- intros H. destruct (string_dec t "__proto__") as [->|Hp].
           ++ now rewrite set_proto.
           ++ exfalso. apply H. simpl. tauto.
      * rewrite own_set_other by exact Hne. split; [|reflexivity].
        intros [[Hk|Hin] Hp]; [contradiction|tauto].
Qed.

Lemma tfidf_of_own docs d t :
  In t (Spec.terms_of d) -> t <> "__proto__" ->
  Obj.own (tfidf_of docs d) t
  = Some (VNum (stored_weight docs (termDocFreq docs) (Spec.terms_of d)
                              (termFreq (Spec.terms_of d)) t)).
Proof.
  intros Hin Hp. unfold tfidf_of. rewrite terms_of_tokenize.
  apply fold_tfidf_entry_own. split; [|exact Hp].
  apply termFreq_keys. tauto.
Qed.

Lemma tfidf_of_absent docs d t :
  ~ (In t (Spec.terms_of d) /\ t <> "__proto__") ->
  Obj.own (tfidf_of docs d) t = None.
Proof.
  intros H. unfold tfidf_of. rewrite terms_of_tokenize.
  destruct (fold_tfidf_entry_own docs (termDocFreq docs) (Spec.terms_of d)
              (termFreq (Spec.terms_of d)) (Obj.keys (termFreq (Spec.terms_of d)))
              Obj.empty t) as [_ H2].
  rewrite H2; [reflexivity|].
  rewrite termFreq_keys. tauto.
Qed.

(** The keys of a weight vector are the terms of the document, [__proto__]
    left out. *)
Lemma tfidf_of_keys docs d t :
  In t (Obj.keys (tfidf_of docs d)) <-> In t (Spec.terms_of d) /\ t <> "__proto__".
Proof.
  rewrite own_keys. split.
  - intros H.
    destruct (in_dec string_dec t (Spec.terms_of d)) as [Hin|Hin];
      destruct (string_dec t "__proto__") as [Hp|Hp]; try tauto;
      exfalso; apply H; apply tfidf_of_absent; tauto.
  - intros [Hin Hp]. rewrite tfidf_of_own by assumption. discriminate.
Qed.

(** For a term that is no property name of [Object.prototype], the stored
    number is the weight of the specification. *)
Lemma stored_weight_plain docs d t :
  In d docs -> In t (Spec.terms_of d) -> plain t ->
  stored_weight docs (termDocFreq docs) (Spec.terms_of d)
                (termFreq (Spec.terms_of d)) t
  = Fin (Spec.weight t d docs).
Proof.
  intros Hd Ht Hp. unfold stored_weight, Spec.weight, Spec.tf, Spec.idf.
  pose proof (termFreq_counted (Spec.terms_of d) t Hp) as Hc.
  pose proof (termDocFreq_counted docs t Hp) as Hdf.
  pose proof (df_positive docs d t Hd Ht) as Hpos.
  apply (count_occ_In string_dec) in Ht.
  fold (Spec.occurrences t (Spec.terms_of d)) in *.
  destruct (Spec.occurrences t (Spec.terms_of d)) as [|c]; [lia|].
  destruct (Spec.df t docs) as [|k]; [lia|].
  simpl in Hc, Hdf. unfold Obj.get. rewrite Hc, Hdf.
  unfold or_else. rewrite truthy_count. cbn [to_number].
  unfold Num.of_nat. rewrite docCount_N.
  rewrite div_fin by (apply not_0_INR; lia).
  rewrite div_fin by (apply not_0_INR; lia).
  rewrite log_fin; [reflexivity|].
  apply Rdiv_lt_0_compat; apply lt_0_INR; unfold Spec.N; lia.
Qed.

End Index.

(** ** Properties of the cosine similarity *)

Section Cosine.

Lemma cosine_step_weights vec1 vec2 d a b t :
  cosine_step vec1 vec2 (d, a, b) t
  = (Num.add d (Num.mul (weight_at vec1 t) (weight_at vec2 t)),
     Num.add a (Num.mul (weight_at vec1 t) (weight_at vec1 t)),
     Num.add b (Num.mul (weight_at vec2 t) (weight_at vec2 t))).
Proof. reflexivity. Qed.

Lemma cauchy_schwarz_step (d a b x y : R) :
  (d * d <= a * b -> 0 <= a -> 0 <= b ->
   (d + x * y) * (d + x * y) <= (a + x * x) * (b + y * y))%R.
Proof.
  intros H Ha Hb.
  assert (0 <= x * x)%R as Hx by apply Rle_0_sqr.
  assert (0 <= y * y)%R as Hy by apply Rle_0_sqr.
  assert (0 <= a * (y * y))%R as Hay by now apply Rmult_le_pos.
  assert (0 <= b * (x * x))%R as Hbx by now apply Rmult_le_pos.
  assert (2 * d * (x * y) <= a * (y * y) + b * (x * x))%R as Hm.
  { destruct (Rle_dec (2 * d * (x * y)) 0) as [Hn|Hn]; [lra|].
    apply Rnot_le_lt in Hn.
    apply Rsqr_incr_0; [|lra|lra]. unfold Rsqr.
    assert (d * d * (x * x * (y * y)) <= a * b * (x * x * (y * y)))%R as H1.
    { apply Rmult_le_compat_r; [now apply Rmult_le_pos|exact H]. }
    pose proof (Rle_0_sqr (a * (y * y) - b * (x * x))) as H2. unfold Rsqr in H2.
    replace (2 * d * (x * y) * (2 * d * (x * y)))%R
      with (4 * (d * d * (x * x * (y * y))))%R by ring.
    replace ((a * (y * y) + b * (x * x)) * (a * (y * y) + b * (x * x)))%R
      with ((a * (y * y) - b * (x * x)) * (a * (y * y) - b * (x * x))
            + 4 * (a * b * (x * x * (y * y))))%R by ring.
    lra. }
  replace ((d + x * y) * (d + x * y))%R
    with (d * d + 2 * d * (x * y) + x * x * (y * y))%R by ring.
  replace ((a + x * x) * (b + y * y))%R
    with (a * b + (a * (y * y) + b * (x * x)) + x * x * (y * y))%R by ring.
  lra.
Qed.

Lemma cosine_step_bounded vec1 vec2 acc t :
  sums_bounded acc -> sums_bounded (cosine_step vec1 vec2 acc t).
Proof.
  destruct acc as [[d a] b]. rewrite cosine_step_weights.
  destruct d as [d|]; [|intros _; exact I].
  destruct a as [a|]; [|intros []].
  destruct b as [b|]; [|intros []].
  intros [H [Ha Hb]].
  destruct (weight_at vec1 t) as [x|]; [|exact I].
  destruct (weight_at vec2 t) as [y|]; [|exact I].
  simpl. split; [now apply cauchy_schwarz_step|]. split; nra.
Qed.

Lemma fold_cosine_step_bounded vec1 vec2 ts acc :
  sums_bounded acc -> sums_bounded (fold_left (cosine_step vec1 vec2) ts acc).
Proof.
  revert acc. induction ts as [|t ts IH]; intros acc H; simpl; [exact H|].
  apply IH. now apply cosine_step_bounded.
Qed.

Lemma cosine_sums_bounded vec1 vec2 : sums_bounded (cosine_sums vec1 vec2).
Proof.
  apply fold_cosine_step_bounded. simpl. lra.
Qed.




Lemma div_le_1 (d D : R) : (0 < D -> d <= D -> d / D <= 1)%R.
Proof.
  intros HD Hle. apply Rmult_le_reg_r with D; [exact HD|].
  unfold Rdiv. rewrite Rmult_assoc, Rinv_l by lra. lra.
Qed.

(** A similarity that is a number is at most 1. *)
Lemma cosineSimilarity_le_1 vec1 vec2 s :
  cosineSimilarity vec1 vec2 = Fin s -> (s <= 1)%R.
Proof.
  unfold cosineSimilarity.
  pose proof (cosine_sums_bounded vec1 vec2) as Hb.
  destruct (cosine_sums vec1 vec2) as [[d a] b].
  destruct d as [d|].
  - destruct a as [a|]; [|destruct Hb]. destruct b as [b|]; [|destruct Hb].
    destruct Hb as [H [Ha Hb]].
    unfold Num.sqrt. destruct (Rle_dec 0 a); [|contradiction].
    destruct (Rle_dec 0 b); [|contradiction].
    cbn [Num.mul Num.is_zero].
    destruct (Req_dec_T (sqrt a * sqrt b) 0) as [Hz|Hz].
    + intros [= <-]. lra.
    + rewrite div_fin by exact Hz. intros [= <-].
      assert (0 < sqrt a * sqrt b)%R as Hpos.
      { pose proof (sqrt_pos a). pose proof (sqrt_pos b).
        assert (0 <= sqrt a * sqrt b)%R by now apply Rmult_le_pos.
        lra. }
      apply div_le_1; [exact Hpos|].
      destruct (Rle_dec d 0) as [Hd|Hd]; [lra|].
      apply Rsqr_incr_0; [|lra|lra]. unfold Rsqr.
      replace (sqrt a * sqrt b * (sqrt a * sqrt b))%R
        with ((sqrt a * sqrt a) * (sqrt b * sqrt b))%R by ring.
      rewrite !sqrt_sqrt by assumption. exact H.
  - destruct (Num.is_zero _).
    + intros [= <-]. lra.
    + unfold Num.div. discriminate.
Qed.

End Cosine.

(** ** Keys inherited from [Object.prototype] *)

Section Inherited.

Lemma plain_dec t : {plain t} + {Obj.inherited t = VObject}.
Proof.
  unfold plain, Obj.inherited.
  destruct (existsb (String.eqb t) Obj.prototype_names); [now right|now left].
Qed.

Lemma count_term_tainted o u t :
  Obj.inherited t = VObject -> tainted o t -> tainted (count_term o u) t.
Proof.
  intros Hi Ht. unfold count_term.
  destruct (string_dec u t) as [->|Hne].
  - destruct (string_dec t "__proto__") as [->|Hp]; [now rewrite set_proto|].
    right. rewrite own_set_same by exact Hp. f_equal.
    unfold Obj.get. destruct Ht as [-> | ->]; [rewrite Hi|]; reflexivity.
  - unfold tainted. now rewrite own_set_other.
Qed.

Lemma fold_count_term_tainted o l t :
  Obj.inherited t = VObject -> tainted o t -> tainted (fold_left count_term l o) t.
Proof.
  intros Hi. revert o. induction l as [|u l IH]; intros o Ht; [exact Ht|].
  apply IH. now apply count_term_tainted.
Qed.

Lemma tainted_get o t :
  Obj.inherited t = VObject -> tainted o t -> to_number (Obj.get o t) = NaN.
Proof.
  intros Hi Ht. unfold Obj.get. destruct Ht as [-> | ->]; [rewrite Hi|]; reflexivity.
Qed.

(** A term that [Object.prototype] defines never gets a number: its weight
    is [NaN]. *)
Lemma stored_weight_inherited docs fa terms t :
  Obj.inherited t = VObject ->
  stored_weight docs fa terms (termFreq terms) t = NaN.
Proof.
  intros Hi. unfold stored_weight.
  rewrite (tainted_get (termFreq terms) t Hi); [reflexivity|].
  apply fold_count_term_tainted; [exact Hi|now left].
Qed.

Lemma queryVec_inherited terms t :
  Obj.inherited t = VObject -> In t terms -> t <> "__proto__" ->
  Obj.own (queryVec terms) t = Some VObjText.
Proof.
  intros Hi Hin Hp.
  assert (tainted (queryVec terms) t) as [H|H].
  { apply fold_count_term_tainted; [exact Hi|now left]. }
  - exfalso. revert H. apply own_keys.
    unfold queryVec. apply fold_count_term_keys. tauto.
  - exact H.
Qed.

End Inherited.

(** ** Weights read by the cosine similarity *)

Section Weights.

Lemma weight_at_number vec t x :
  Obj.own vec t = Some (VNum (Fin x)) -> weight_at vec t = Fin x.
Proof.
  intros H. unfold weight_at, Obj.get, or_else, truthy, Num.is_zero. rewrite H.
  destruct (Req_dec_T x 0) as [->|]; reflexivity.
Qed.

Lemma weight_at_nan vec t :
  Obj.own vec t = Some (VNum NaN) -> weight_at vec t = Fin 0.
Proof. intros H. unfold weight_at, Obj.get. now rewrite H. Qed.

Lemma weight_at_absent vec t :
  Obj.own vec t = None -> plain t -> weight_at vec t = Fin 0.
Proof.
  intros H Hp. unfold weight_at. now rewrite (get_plain_absent vec t Hp H).
Qed.

Lemma null_at_absent vec t : Obj.own vec t = None -> null_at vec t.
Proof.
  intros H. destruct (plain_dec t) as [Hp|Hi].
  - left. now apply weight_at_absent.
  - right. unfold weight_at, Obj.get. rewrite H, Hi. reflexivity.
Qed.

Lemma weight_at_query terms t :
  plain t ->
  weight_at (queryVec terms) t = Fin (INR (count_occ string_dec terms t)).
Proof.
  intros Hp.
  pose proof (fold_count_term Obj.empty terms t 0 Hp eq_refl) as Hc.
  fold (queryVec terms) in Hc. simpl in Hc.
  destruct (count_occ string_dec terms t) as [|n].
  - now apply weight_at_absent.
  - now apply weight_at_number.
Qed.

Lemma weight_at_tfidf docs d t :
  In d docs -> In t (Spec.terms_of d) -> plain t ->
  weight_at (tfidf_of docs d) t = Fin (Spec.weight t d docs).
Proof.
  intros Hd Ht Hp. apply weight_at_number.
  rewrite tfidf_of_own by (try apply plain_not_proto; assumption).
  now rewrite stored_weight_plain.
Qed.

(** Outside the names of [Object.prototype], [calculateTFIDF] stores the
    weight of the specification under every term of the document. *)
Lemma tfidf_weight_plain docs d t :
  In d docs -> In t (Spec.terms_of d) -> plain t ->
  Obj.own (tfidf_of docs d) t = Some (VNum (Fin (Spec.weight t d docs))).
Proof.
  intros Hd Ht Hp.
  rewrite tfidf_of_own by (try apply plain_not_proto; assumption).
  now rewrite stored_weight_plain.
Qed.

(** Outside the names of [Object.prototype], the query vector holds the
    number of occurrences of each query term. *)
Lemma queryVec_counts_plain terms t :
  plain t -> counted (queryVec terms) t (Spec.occurrences t terms).
Proof.
  intros Hp. apply (fold_count_term Obj.empty terms t 0 Hp). reflexivity.
Qed.

Lemma null_at_tfidf_other docs d t :
  ~ In t (Spec.terms_of d) -> null_at (tfidf_of docs d) t.
Proof.
  intros H. apply null_at_absent, tfidf_of_absent. tauto.
Qed.

End Weights.

Section Orthogonal.

Variables vec1 vec2 : Obj.t.

Hypothesis no_product :
  forall t z, Num.mul (weight_at vec1 t) (weight_at vec2 t) = Fin z -> z = 0%R.

Lemma fold_cosine_step_dot ts d a b :
  d = NaN \/ d = Fin 0 ->
  let '(d', _, _) := fold_left (cosine_step vec1 vec2) ts (d, a, b) in
  d' = NaN \/ d' = Fin 0.
Proof.
  revert d a b. induction ts as [|t ts IH]; intros d a b Hd; [exact Hd|].
  cbn [fold_left]. rewrite cosine_step_weights. apply IH.
  destruct Hd as [-> | ->]; [now left|].
  destruct (Num.mul (weight_at vec1 t) (weight_at vec2 t)) as [z|] eqn:Hz; [|now left].
  right. rewrite (no_product t z Hz). simpl. f_equal. lra.
Qed.

(** Vectors without a common non-zero coordinate have no strictly positive
    similarity. *)
Lemma cosine_orthogonal : Num.positive (cosineSimilarity vec1 vec2) = false.
Proof.
  unfold cosineSimilarity, cosine_sums.
  pose proof (fold_cosine_step_dot
                (new_Set (Obj.keys vec1 ++ Obj.keys vec2))
                Num.zero Num.zero Num.zero (or_intror eq_refl)) as H.
  destruct (fold_left _ _ _) as [[d a] b].
  assert (Num.positive Num.zero = false) as Hz.
  { unfold Num.positive, Num.zero. destruct (Rlt_dec 0 0); [lra|reflexivity]. }
  destruct (Num.is_zero _); [exact Hz|].
  destruct H as [-> | ->]; [reflexivity|].
  destruct (Num.mul _ _) as [y|]; [|reflexivity].
  unfold Num.div. destruct (Req_dec_T y 0); [reflexivity|].
  unfold Num.positive. destruct (Rlt_dec 0 (0 / y)) as [H|H]; [|reflexivity].
  unfold Rdiv in H. rewrite Rmult_0_l in H. lra.
Qed.

End Orthogonal.

Section Relevance.

Lemma null_product vec1 vec2 :
  (forall t, null_at vec1 t \/ null_at vec2 t) ->
  forall t z, Num.mul (weight_at vec1 t) (weight_at vec2 t) = Fin z -> z = 0%R.
Proof.
  intros H t z. destruct (H t) as [[-> | ->]|[-> | ->]];
    destruct (weight_at _ t); simpl; try discriminate; intros [= <-]; lra.
Qed.

Lemma queryVec_absent terms t : ~ In t terms -> Obj.own (queryVec terms) t = None.
Proof.
  intros H. destruct (Obj.own (queryVec terms) t) eqn:Ho; [|reflexivity].
  exfalso. apply H.
  assert (In t (Obj.keys (queryVec terms))) as Hk
      by (apply own_keys; congruence).
  unfold queryVec in Hk. apply fold_count_term_keys in Hk. simpl in Hk. tauto.
Qed.

(** A document that shares no term with the query is not relevant. *)
Lemma no_shared_term docs d terms :
  (forall t, In t terms -> ~ In t (Spec.terms_of d)) ->
  Num.positive (cosineSimilarity (queryVec terms) (tfidf_of docs d)) = false.
Proof.
  intros H. apply cosine_orthogonal, null_product. intros t.
  destruct (in_dec string_dec t terms) as [Hin|Hin].
  - right. now apply null_at_tfidf_other, H.
  - left. now apply null_at_absent, queryVec_absent.
Qed.

Lemma ln_one_quotient : ln (INR 1 / INR 1) = 0%R.
Proof. simpl. replace (1 / 1)%R with 1%R by lra. apply ln_1. Qed.

(** A term that occurs in every document has the weight 0, unless
    [Object.prototype] defines it. *)
Lemma weight_in_every_document docs d t :
  In d docs -> In t (Spec.terms_of d) -> plain t ->
  Spec.df t docs = length docs ->
  Obj.own (tfidf_of docs d) t = Some (VNum (Fin 0)).
Proof.
  intros Hd Ht Hp Hdf.
  rewrite tfidf_of_own by (try apply plain_not_proto; assumption).
  rewrite stored_weight_plain by assumption.
  unfold Spec.weight, Spec.idf, Spec.N. rewrite Hdf.
  destruct docs as [|d0 docs]; [destruct Hd|].
  replace (Nat.max 1 (length (d0 :: docs))) with (length (d0 :: docs))
    by (simpl; lia).
  unfold Rdiv. rewrite Rinv_r by (apply not_0_INR; discriminate).
  now rewrite ln_1, Rmult_0_r.
Qed.

(** In a collection of one document every coordinate of the weight vector
    reads as 0 or [NaN]. *)
Lemma single_document_null d t : null_at (tfidf_of [d] d) t.
Proof.
  destruct (in_dec string_dec t (Spec.terms_of d)) as [Hin|Hin];
    [|now apply null_at_tfidf_other].
  destruct (string_dec t "__proto__") as [->|Hproto].
  { apply null_at_absent, tfidf_of_absent. tauto. }
  left. destruct (plain_dec t) as [Hp|Hi].
  - apply weight_at_number, weight_in_every_document; auto; [now left|].
    unfold Spec.df. cbn [filter].
    apply existsb_eqb_In in Hin. now rewrite Hin.
  - apply weight_at_nan. rewrite tfidf_of_own by assumption.
    now rewrite stored_weight_inherited.
Qed.

Lemma single_document_irrelevant d qv :
  relevant (new_RetrievalEngine (Some [d])) qv = [].
Proof.
  unfold relevant, scored, new_RetrievalEngine. rewrite calculateTFIDF_map.
  cbn [documents map filter score tfidf].
  rewrite cosine_orthogonal; [reflexivity|].
  apply null_product. intros t. right. apply single_document_null.
Qed.

End Relevance.

(** ** Properties of sorting and slicing *)

Section Sorting.

Context {A : Type}.
Variable behind : A -> A -> bool.

Lemma sort_insert_perm x l : Permutation (sort_insert behind x l) (x :: l).
Proof.
  induction l as [|y l IH]; simpl; [reflexivity|].
  destruct (behind x y); [|reflexivity].
  rewrite IH. apply perm_swap.
Qed.

Lemma sort_perm l : Permutation (sort behind l) l.
Proof.
  induction l as [|x l IH]; simpl; [reflexivity|].
  rewrite sort_insert_perm. now constructor.
Qed.



End Sorting.

Section Slicing.

Context {A : Type}.

Lemma slice0_firstn (k : Z) (l : list A) : exists n, slice0 k l = firstn n l.
Proof. unfold slice0. destruct (k <? 0)%Z; eexists; reflexivity. Qed.

Lemma slice0_length (k : Z) (l : list A) :
  (0 <= k)%Z -> (Z.of_nat (length (slice0 k l)) <= k)%Z.
Proof.
  intros Hk. unfold slice0. destruct (Z.ltb_spec k 0); [lia|].
  rewrite length_firstn. lia.
Qed.


Lemma In_firstn n (l : list A) y : In y (firstn n l) -> In y l.
Proof.
  revert n. induction l as [|x l IH]; intros [|n]; simpl; try tauto.
  intros [H|H]; [auto|right; now apply (IH n)].
Qed.


End Slicing.

Section SortingByScore.






End SortingByScore.

(** ** Properties of [retrieve] *)

Section Retrieve.

Variable this : RetrievalEngine.

Lemma retrieve_cases query topK :
  retrieve this query topK = []
  \/ retrieve this query topK
     = slice0 topK (sort lower_score (relevant this (queryVec (tokenize query)))).
Proof.
  unfold retrieve, relevant. destruct query as [q|]; [|now left].
  destruct (String.eqb q EmptyString || String.eqb (trim q) EmptyString); [now left|].
  destruct (tokenize (Some q)); [now left|now right].
Qed.

Lemma scored_score qv r :
  In r (scored this qv) -> score r = cosineSimilarity qv (tfidf (indexed r)).
Proof.
  unfold scored. intros H. apply in_map_iff in H as [d [<- _]]. reflexivity.
Qed.

Lemma relevant_scores qv r :
  In r (relevant this qv) ->
  exists s, score r = Fin s /\ (0 < s <= 1)%R.
Proof.
  unfold relevant. intros H. apply filter_In in H as [Hin Hpos].
  apply scored_score in Hin.
  destruct (score r) as [s|] eqn:Hs; [|discriminate].
  exists s. split; [reflexivity|]. split.
  - unfold Num.positive in Hpos. destruct (Rlt_dec 0 s); [assumption|discriminate].
  - now apply (cosineSimilarity_le_1 qv (tfidf (indexed r))).
Qed.


Lemma relevant_length qv :
  length (relevant this qv)
  = length (filter (fun d => Num.positive (cosineSimilarity qv (tfidf d)))
                   (documents this)).
Proof.
  unfold relevant, scored. induction (documents this) as [|d l IH]; [reflexivity|].
  cbn [map filter score].
  destruct (Num.positive (cosineSimilarity qv (tfidf d))); simpl; now rewrite IH.
Qed.

Lemma retrieved_relevant query topK r :
  In r (retrieve this query topK) ->
  In r (relevant this (queryVec (tokenize query))).
Proof.
  destruct (retrieve_cases query topK) as [-> | ->]; [intros []|].
  destruct (slice0_firstn topK (sort lower_score (relevant this (queryVec (tokenize query)))))
    as [n ->].
  intros H. apply In_firstn in H.
  revert H. apply Permutation_in, sort_perm.
Qed.

Lemma retrieve_length_le query topK :
  length (retrieve this query topK)
  <= length (relevant this (queryVec (tokenize query))).
Proof.
  destruct (retrieve_cases query topK) as [-> | ->]; [simpl; lia|].
  destruct (slice0_firstn topK (sort lower_score (relevant this (queryVec (tokenize query)))))
    as [n ->].
  rewrite length_firstn.
  rewrite (Permutation_length (sort_perm lower_score _)). lia.
Qed.




Lemma all_space_trim q : all_space q = true -> trim q = EmptyString.
Proof.
  unfold trim. induction q as [|c q IH]; [reflexivity|].
  simpl. intros H. apply andb_true_iff in H as [Hc Hq].
  rewrite Hc. now apply IH.
Qed.

End Retrieve.

(** ** The word [constructor] *)

Section Constructor.

Lemma fold_cosine_step_nan vec1 vec2 ts a b :
  fst (fst (fold_left (cosine_step vec1 vec2) ts (NaN, a, b))) = NaN.
Proof.
  revert a b. induction ts as [|t ts IH]; intros a b; [reflexivity|].
  cbn [fold_left]. rewrite cosine_step_weights. apply IH.
Qed.

Lemma fold_cosine_step_hits vec1 vec2 t0 ts d a b :
  In t0 ts ->
  weight_at vec1 t0 = NaN \/ weight_at vec2 t0 = NaN ->
  fst (fst (fold_left (cosine_step vec1 vec2) ts (d, a, b))) = NaN.
Proof.
  intros Hin Hnan. revert d a b.
  induction ts as [|t ts IH]; intros d a b; [destruct Hin|].
  cbn [fold_left]. rewrite cosine_step_weights.
  destruct Hin as [->|Hin]; [|now apply IH].
  replace (Num.add d (Num.mul (weight_at vec1 t0) (weight_at vec2 t0))) with NaN.
  - apply fold_cosine_step_nan.
  - destruct Hnan as [H|H]; rewrite H; destruct d; try reflexivity;
      destruct (weight_at vec1 t0); reflexivity.
Qed.

(** One coordinate that reads as [NaN] makes the similarity [NaN]. *)
Lemma cosine_nan_coordinate vec1 vec2 t0 :
  In t0 (Obj.keys vec1 ++ Obj.keys vec2) ->
  weight_at vec1 t0 = NaN \/ weight_at vec2 t0 = NaN ->
  Num.positive (cosineSimilarity vec1 vec2) = false.
Proof.
  intros Hin Hnan. unfold cosineSimilarity, cosine_sums.
  pose proof (fold_cosine_step_hits vec1 vec2 t0
                (new_Set (Obj.keys vec1 ++ Obj.keys vec2))
                Num.zero Num.zero Num.zero) as H.
  rewrite new_Set_In in H. specialize (H Hin Hnan).
  destruct (fold_left _ _ _) as [[d a] b]. simpl in H. subst d.
  destruct (Num.is_zero _); [|reflexivity].
  unfold Num.positive, Num.zero. destruct (Rlt_dec 0 0); [lra|reflexivity].
Qed.

Lemma weight_at_query_inherited terms t :
  Obj.inherited t = VObject -> weight_at (queryVec terms) t = NaN.
Proof.
  intros Hi. unfold weight_at, Obj.get.
  assert (tainted (queryVec terms) t) as [-> | ->]
      by (apply fold_count_term_tainted; [exact Hi|now left]);
    [rewrite Hi|]; reflexivity.
Qed.

Lemma relevant_none this qv :
  (forall d, In d (documents this) ->
             Num.positive (cosineSimilarity qv (tfidf d)) = false) ->
  relevant this qv = [].
Proof.
  unfold relevant, scored. induction (documents this) as [|d l IH]; [reflexivity|].
  intros H. cbn [map filter score]. rewrite (H d (or_introl eq_refl)).
  apply IH. intros d' Hd'. apply H. now right.
Qed.

Lemma retrieve_none this query topK :
  relevant this (queryVec (tokenize query)) = [] -> retrieve this query topK = [].
Proof.
  intros H. destruct (retrieve_cases this query topK) as [-> | ->]; [reflexivity|].
  rewrite H. unfold slice0. simpl. destruct (topK <? 0)%Z; apply firstn_nil.
Qed.

(** A query that holds the word [constructor] retrieves nothing. *)
Lemma constructor_in_query this query topK :
  In "constructor" (tokenize query) -> retrieve this query topK = [].
Proof.
  intros Hin. apply retrieve_none, relevant_none. intros d _.
  apply (cosine_nan_coordinate _ _ "constructor").
  - apply in_or_app. left. unfold queryVec. apply fold_count_term_keys.
    right. split; [exact Hin|discriminate].
  - left. now apply weight_at_query_inherited.
Qed.

(** A document that holds the word [constructor] is never relevant. *)
Lemma constructor_in_document docs d terms :
  In "constructor" (Spec.terms_of d) ->
  Num.positive (cosineSimilarity (queryVec terms) (tfidf_of docs d)) = false.
Proof.
  intros Hin. apply (cosine_nan_coordinate _ _ "constructor").
  - apply in_or_app. right. apply tfidf_of_keys. split; [exact Hin|discriminate].
  - left. now apply weight_at_query_inherited.
Qed.

End Constructor.

(** ** The three-document scenario *)

Section ScenarioProofs.

Import Scenario.

Lemma sqrt_fin x : (0 <= x)%R -> Num.sqrt (Fin x) = Fin (sqrt x).
Proof.
  intros H. unfold Num.sqrt. destruct (Rle_dec 0 x); [reflexivity|contradiction].
Qed.

Lemma ln3_pos : (0 < ln 3)%R.
Proof. rewrite <- ln_1. apply ln_increasing; lra. Qed.

Ltac count_by_computation f :=
  repeat match goal with
         | |- context [f ?x ?y] =>
             let n := eval vm_compute in (f x y) in
             progress (replace (f x y) with n by (vm_compute; reflexivity))
         end.

Ltac scenario_weight :=
  unfold Spec.weight, Spec.tf, Spec.idf, Spec.N;
  count_by_computation Spec.occurrences;
  count_by_computation Spec.df;
  count_by_computation Nat.max;
  simpl INR.

Lemma weight_machine : Spec.weight "machine" doc3 collection = (1 / 5 * ln 3)%R.
Proof.
  scenario_weight. replace ((1 + 1 + 1) / 1)%R with 3%R by lra. lra.
Qed.

Lemma weight_learning : Spec.weight "learning" doc3 collection = (2 / 5 * ln 3)%R.
Proof.
  scenario_weight. replace ((1 + 1 + 1) / 1)%R with 3%R by lra. lra.
Qed.

Lemma weight_deep : Spec.weight "deep" doc3 collection = (1 / 5 * ln 3)%R.
Proof.
  scenario_weight. replace ((1 + 1 + 1) / 1)%R with 3%R by lra. lra.
Qed.

Lemma weight_part : Spec.weight "part" doc3 collection = (1 / 5 * ln 3)%R.
Proof.
  scenario_weight. replace ((1 + 1 + 1) / 1)%R with 3%R by lra. lra.
Qed.

Lemma scenario_terms :
  new_Set (Obj.keys (queryVec (tokenize query)) ++ Obj.keys (tfidf_of collection doc3))
  = ["machine"; "learning"; "deep"; "part"].
Proof. reflexivity. Qed.

Ltac query_weight :=
  rewrite weight_at_query by reflexivity;
  match goal with
  | |- context [count_occ string_dec ?l ?t] =>
      let n := eval vm_compute in (count_occ string_dec l t) in
      replace (count_occ string_dec l t) with n by (vm_compute; reflexivity)
  end;
  simpl INR.

Ltac doc_weight :=
  rewrite weight_at_tfidf by (first [reflexivity | vm_compute; tauto]).

(** The similarity of the third document to the query is 3 / sqrt 14. *)
Lemma scenario_score3 :
  exists s, cosineSimilarity (queryVec (tokenize query)) (tfidf_of collection doc3) = Fin s
            /\ (0 < s)%R /\ (s * s = 9 / 14)%R.
Proof.
  unfold cosineSimilarity, cosine_sums. rewrite scenario_terms.
  cbn [fold_left]. rewrite !cosine_step_weights.
  do 4 query_weight. do 4 doc_weight.
  rewrite weight_machine, weight_learning, weight_deep, weight_part.
  cbn [Num.add Num.mul Num.zero].
  pose proof ln3_pos as HL. set (L := ln 3) in *.
  set (d := (0 + 1 * (1 / 5 * L) + 1 * (2 / 5 * L) + 0 * (1 / 5 * L) + 0 * (1 / 5 * L))%R).
  set (a := (0 + 1 * 1 + 1 * 1 + 0 * 0 + 0 * 0)%R).
  set (b := (0 + 1 / 5 * L * (1 / 5 * L) + 2 / 5 * L * (2 / 5 * L)
             + 1 / 5 * L * (1 / 5 * L) + 1 / 5 * L * (1 / 5 * L))%R).
  assert (d = 3 / 5 * L)%R as Hd by (unfold d; lra).
  assert (a = 2)%R as Ha by (unfold a; lra).
  assert (b = 7 / 25 * (L * L))%R as Hb by (unfold b; lra).
  assert (0 < L * L)%R as HLL by now apply Rmult_lt_0_compat.
  assert (0 < a)%R as Hap by lra.
  assert (0 < b)%R as Hbp by lra.
  rewrite !sqrt_fin by lra. cbn [Num.mul Num.is_zero].
  assert (0 < sqrt a)%R as Hsa by now apply sqrt_lt_R0.
  assert (0 < sqrt b)%R as Hsb by now apply sqrt_lt_R0.
  assert (0 < sqrt a * sqrt b)%R as HD by now apply Rmult_lt_0_compat.
  destruct (Req_dec_T (sqrt a * sqrt b) 0) as [Hz|Hz]; [lra|].
  rewrite div_fin by exact Hz.
  exists (d / (sqrt a * sqrt b))%R. split; [reflexivity|]. split.
  - apply Rdiv_lt_0_compat; lra.
  - assert ((sqrt a * sqrt b) * (sqrt a * sqrt b) = a * b)%R as Hsq.
    { replace (sqrt a * sqrt b * (sqrt a * sqrt b))%R
        with ((sqrt a * sqrt a) * (sqrt b * sqrt b))%R by ring.
      rewrite !sqrt_sqrt by lra. reflexivity. }
    replace (d / (sqrt a * sqrt b) * (d / (sqrt a * sqrt b)))%R
      with (d * d / ((sqrt a * sqrt b) * (sqrt a * sqrt b)))%R
      by (field; repeat split; lra).
    rewrite Hsq, Hd, Ha, Hb. field. lra.
Qed.

Lemma scenario_retrieve :
  exists s,
    retrieve engine query 3
    = [mkScored (mkIndexed doc3 (tfidf_of collection doc3)) (Fin s)]
    /\ (0 < s)%R /\ (s * s = 9 / 14)%R.
Proof.
  destruct scenario_score3 as [s [Hs [Hpos Hsq]]].
  exists s. split; [|split; assumption].
  change (retrieve engine query 3)
    with (slice0 3 (sort lower_score (relevant engine (queryVec (tokenize query))))).
  unfold relevant, scored, engine, new_RetrievalEngine.
  rewrite calculateTFIDF_map.
  cbn [documents map collection filter score tfidf].
  rewrite (no_shared_term collection doc1)
    by (vm_compute; intros t [<-|[<-|[]]]; intuition discriminate).
  rewrite (no_shared_term collection doc2)
    by (vm_compute; intros t [<-|[<-|[]]]; intuition discriminate).
  rewrite Hs. unfold Num.positive.
  destruct (Rlt_dec 0 s); [|contradiction]. reflexivity.
Qed.

End ScenarioProofs.

(** ** The engine on binary64 numbers: bounds and runs *)

Section Binary64Retrieve.

Variable documents : list Binary64.IndexedDocument.

Lemma binary64_retrieve_cases query topK :
  Binary64.retrieve documents query topK = []
  \/ Binary64.retrieve documents query topK
     = slice0 topK
         (sort Binary64.lower_score
            (Binary64.relevant documents (Binary64.queryVec (tokenize query)))).
Proof.
  unfold Binary64.retrieve. destruct query as [q|]; [|now left].
  destruct (String.eqb q EmptyString || String.eqb (trim q) EmptyString); [now left|].
  destruct (tokenize (Some q)); [now left|now right].
Qed.

Lemma binary64_relevant_length qv :
  length (Binary64.relevant documents qv)
  = length (filter (fun d => Binary64.positive
                               (Binary64.cosineSimilarity qv (Binary64.tfidf d)))
                   documents).
Proof.
  unfold Binary64.relevant, Binary64.scored.
  induction documents as [|d l IH]; [reflexivity|].
  cbn [map filter Binary64.score].
  destruct (Binary64.positive (Binary64.cosineSimilarity qv (Binary64.tfidf d)));
    simpl; now rewrite IH.
Qed.

(** On binary64 numbers too, [retrieve] returns at most [topK] results, at
    most as many as there are documents of strictly positive similarity,
    each with a strictly positive score. *)
Lemma binary64_retrieve_bounds query topK :
  (0 < topK)%Z ->
  (Z.of_nat (length (Binary64.retrieve documents query topK)) <= topK)%Z
  /\ length (Binary64.retrieve documents query topK)
     <= length (filter (fun d => Binary64.positive
                                   (Binary64.cosineSimilarity
                                      (Binary64.queryVec (tokenize query))
                                      (Binary64.tfidf d)))
                       documents)
  /\ Forall (fun r => Binary64.positive (Binary64.score r) = true)
            (Binary64.retrieve documents query topK).
Proof.
  intros Hk.
  destruct (binary64_retrieve_cases query topK) as [-> | ->].
  { simpl. repeat split; [lia|lia|constructor]. }
  set (l := Binary64.relevant documents (Binary64.queryVec (tokenize query))).
  split; [apply slice0_length; lia|].
  destruct (slice0_firstn topK (sort Binary64.lower_score l)) as [n ->].
  split.
  - rewrite <- binary64_relevant_length. fold l.
    rewrite length_firstn, (Permutation_length (sort_perm Binary64.lower_score l)).
    lia.
  - apply Forall_forall. intros r Hr. apply In_firstn in Hr.
    apply (Permutation_in r (sort_perm Binary64.lower_score l)) in Hr.
    unfold l, Binary64.relevant in Hr. now apply filter_In in Hr.
Qed.

End Binary64Retrieve.

Section Binary64Runs.

(** The three-document scenario: one result, of score 0.8017837257372732. *)
Example binary64_scenario :
  map (fun r => (doc_id (Binary64.doc (Binary64.indexed r)),
                 Binary64.above (Binary64.score r) PrimFloat.zero,
                 Binary64.above PrimFloat.one (Binary64.score r)))
      (Binary64.retrieve
         (Binary64.calculateTFIDF Binary64.log_1_2_3 Scenario.collection)
         Scenario.query 3)
  = [(3%Z, true, true)].
Proof. vm_compute. reflexivity. Qed.

(** One document that repeats the terms of the query: no result. *)
Example binary64_echo :
  Binary64.retrieve (Binary64.calculateTFIDF Binary64.log_1_2_3 [Scenario.echo])
                    Scenario.query 3
  = [].
Proof. vm_compute. reflexivity. Qed.

(** The word [constructor]: a weight that is [NaN], a query vector that
    holds a text, and no result. *)
Example binary64_constructor :
  map (fun i => Binary64.own (Binary64.tfidf i) "constructor")
      (Binary64.calculateTFIDF Binary64.log_1_2_3 Scenario.ctor_collection)
  = [Some (Binary64.VNum PrimFloat.nan); None]
  /\ Binary64.own (Binary64.queryVec (tokenize Scenario.ctor_query)) "constructor"
     = Some Binary64.VObjText
  /\ Binary64.retrieve
       (Binary64.calculateTFIDF Binary64.log_1_2_3 Scenario.ctor_collection)
       Scenario.ctor_query 3
     = [].
Proof. repeat split; vm_compute; reflexivity. Qed.

End Binary64Runs.

(** ** The claims of the specification *)

(** C1, as the code has it.  In a collection of one document every weight
    that is a number is 0 (the logarithm of 1/1), so that no similarity is
    strictly positive and [retrieve] returns the empty result, whatever the
    document and the query. *)
Theorem retrieve_single_document (d : Document) (query : option string) (topK : Z) :
  Num.positive (cosineSimilarity (queryVec (tokenize query)) (tfidf_of [d] d)) = false
  /\ retrieve (new_RetrievalEngine (Some [d])) query topK = [].
Proof.
  split.
  - apply cosine_orthogonal, null_product. intros t. right.
    apply single_document_null.
  - apply retrieve_none, single_document_irrelevant.
Qed.

(** C1 fails on the document that repeats the terms of the query: it is
    not returned, with a score near 1 or any other. *)
Lemma echo_not_retrieved :
  ~ exists r,
      In r (retrieve Scenario.echo_engine Scenario.query 3)
      /\ doc (indexed r) = Scenario.echo
      /\ exists s, score r = Fin s /\ (Rabs (s - 1) <= / 1000000000)%R.
Proof.
  intros [r [Hin _]].
  unfold Scenario.echo_engine in Hin.
  rewrite (retrieve_none _ _ _ (single_document_irrelevant Scenario.echo _)) in Hin.
  exact Hin.
Qed.

(** C2, as the code has it.  On the three documents the query
    [machine learning] retrieves one result, the third document, with the
    score 3 / sqrt 14; the first two documents share no term with the
    query. *)
Theorem scenario_one_result :
  map (fun r => doc (indexed r)) (retrieve Scenario.engine Scenario.query 3)
  = [Scenario.doc3]
  /\ (exists s, map score (retrieve Scenario.engine Scenario.query 3) = [Fin s]
                /\ (0 < s)%R /\ (s * s = 9 / 14)%R)
  /\ tokenize (content Scenario.doc1) = ["subset"]
  /\ tokenize (content Scenario.doc2) = ["cats"; "are"; "mammals"]
  /\ tokenize Scenario.query = ["machine"; "learning"].
Proof.
  destruct scenario_retrieve as [s [Hr Hs]]. rewrite Hr. clear Hr.
  split; [reflexivity|].
  split; [exists s; split; [reflexivity|exact Hs]|].
  repeat split; reflexivity.
Qed.

(** C2 fails: the result does not have two elements. *)
Lemma scenario_not_two_results :
  length (retrieve Scenario.engine Scenario.query 3) <> 2.
Proof.
  destruct scenario_retrieve as [s [Hr _]]. rewrite Hr. discriminate.
Qed.

(** C3 at the word [constructor].  The term occurs in the first document,
    where the specification gives it the weight 1/2 * ln 2; the value that
    [calculateTFIDF] stores is [NaN]. *)
Theorem constructor_weight :
  In "constructor" (Spec.terms_of Scenario.ctor1)
  /\ Spec.weight "constructor" Scenario.ctor1 Scenario.ctor_collection
     = (1 / 2 * ln 2)%R
  /\ map (fun i => Obj.own (tfidf i) "constructor")
         (calculateTFIDF Scenario.ctor_collection)
     = [Some (VNum NaN); None].
Proof.
  split; [vm_compute; tauto|]. split.
  - unfold Spec.weight, Spec.tf, Spec.idf, Spec.N.
    replace (Spec.occurrences "constructor" (Spec.terms_of Scenario.ctor1))
      with 1 by (vm_compute; reflexivity).
    replace (Spec.df "constructor" Scenario.ctor_collection)
      with 1 by (vm_compute; reflexivity).
    replace (Nat.max 1 (length (Spec.terms_of Scenario.ctor1)))
      with 2 by (vm_compute; reflexivity).
    replace (Nat.max 1 (length Scenario.ctor_collection))
      with 2 by (vm_compute; reflexivity).
    simpl INR. replace ((1 + 1) / 1)%R with 2%R by lra. lra.
  - rewrite calculateTFIDF_map. cbn [map Scenario.ctor_collection tfidf].
    rewrite tfidf_of_own by (first [discriminate | vm_compute; tauto]).
    rewrite stored_weight_inherited by reflexivity.
    rewrite tfidf_of_absent; [reflexivity|].
    vm_compute. intuition discriminate.
Qed.


(** C5 at the word [constructor].  The query vector holds a text under that
    key, not the count 1, and the query retrieves nothing from any index. *)
Theorem constructor_query_vector :
  tokenize Scenario.ctor_query = ["what"; "constructor"]
  /\ Obj.own (queryVec (tokenize Scenario.ctor_query)) "constructor" = Some VObjText
  /\ Obj.own (queryVec (tokenize Scenario.ctor_query)) "constructor"
     <> Some (VNum (Num.of_nat 1))
  /\ forall this topK, retrieve this Scenario.ctor_query topK = [].
Proof.
  assert (Obj.own (queryVec (tokenize Scenario.ctor_query)) "constructor"
          = Some VObjText) as H.
  { apply queryVec_inherited; [reflexivity|vm_compute; tauto|discriminate]. }
  split; [reflexivity|]. split; [exact H|]. split; [rewrite H; discriminate|].
  intros this topK. apply constructor_in_query. vm_compute. tauto.
Qed.


(** C7, as the code has it.  For a positive [topK], [retrieve] returns at
    most [topK] results, at most as many as there are documents of strictly
    positive similarity, and each returned score is strictly positive, on
    exact numbers and on binary64 numbers alike; on exact numbers each
    returned score is at most 1. *)
Theorem retrieve_bounds
    (this : RetrievalEngine) (index : list Binary64.IndexedDocument)
    (query : option string) (topK : Z) :
  (0 < topK)%Z ->
  ((Z.of_nat (length (retrieve this query topK)) <= topK)%Z
   /\ length (retrieve this query topK)
      <= length (filter (fun d => Num.positive
                                    (cosineSimilarity (queryVec (tokenize query)) (tfidf d)))
                        (documents this))
   /\ Forall (fun r => exists s, score r = Fin s /\ (0 < s <= 1)%R)
             (retrieve this query topK))
  /\ ((Z.of_nat (length (Binary64.retrieve index query topK)) <= topK)%Z
      /\ length (Binary64.retrieve index query topK)
         <= length (filter (fun d => Binary64.positive
                                       (Binary64.cosineSimilarity
                                          (Binary64.queryVec (tokenize query))
                                          (Binary64.tfidf d)))
                           index)
      /\ Forall (fun r => Binary64.positive (Binary64.score r) = true)
                (Binary64.retrieve index query topK)).
Proof.
  intros Hk. split; [|now apply binary64_retrieve_bounds].
  split; [|split].
  - destruct (retrieve_cases this query topK) as [-> | ->]; [simpl; lia|].
    apply slice0_length. lia.
  - rewrite <- relevant_length. apply retrieve_length_le.
  - apply Forall_forall. intros r Hr.
    apply (relevant_scores this (queryVec (tokenize query))).
    now apply (retrieved_relevant this query topK).
Qed.

(** The bounds of C7 on the scenario of six terms, with [topK] = 3. *)
Lemma retrieve_bounds_witness :
  (0 < 3)%Z
  /\ ((Z.of_nat (length (retrieve Scenario.engine Scenario.six_query 3)) <= 3)%Z
      /\ length (retrieve Scenario.engine Scenario.six_query 3)
         <= length (filter (fun d => Num.positive
                                       (cosineSimilarity
                                          (queryVec (tokenize Scenario.six_query))
                                          (tfidf d)))
                           (documents Scenario.engine))
      /\ Forall (fun r => exists s, score r = Fin s /\ (0 < s <= 1)%R)
                (retrieve Scenario.engine Scenario.six_query 3))
  /\ ((Z.of_nat
         (length
            (Binary64.retrieve
               (Binary64.calculateTFIDF Binary64.log_1_2_3 Scenario.six_collection)
               Scenario.six_query 3)) <= 3)%Z
      /\ length
           (Binary64.retrieve
              (Binary64.calculateTFIDF Binary64.log_1_2_3 Scenario.six_collection)
              Scenario.six_query 3)
         <= length (filter (fun d => Binary64.positive
                                       (Binary64.cosineSimilarity
                                          (Binary64.queryVec
                                             (tokenize Scenario.six_query))
                                          (Binary64.tfidf d)))
                           (Binary64.calculateTFIDF Binary64.log_1_2_3
                                                    Scenario.six_collection))
      /\ Forall (fun r => Binary64.positive (Binary64.score r) = true)
                (Binary64.retrieve
                   (Binary64.calculateTFIDF Binary64.log_1_2_3 Scenario.six_collection)
                   Scenario.six_query 3)).
Proof.
  split; [lia|].
  apply (retrieve_bounds Scenario.engine
           (Binary64.calculateTFIDF Binary64.log_1_2_3 Scenario.six_collection)
           Scenario.six_query 3).
  lia.
Defined.

(** C7 fails on binary64 numbers.  For the document of six distinct terms
    (with a second document beside it) and the query of the same six terms,
    [retrieve] returns the score 1.0000000000000002, which is above 1. *)
Lemma six_terms_score_above_one :
  map Binary64.score
      (Binary64.retrieve
         (Binary64.calculateTFIDF Binary64.log_1_2_3 Scenario.six_collection)
         Scenario.six_query 3)
  = [Binary64.one_plus_ulp]
  /\ Binary64.above Binary64.one_plus_ulp PrimFloat.one = true.
Proof. split; vm_compute; reflexivity. Qed.

(** C8. A query that is absent, empty, made of white space only, or without
    any term gives the empty result, whatever the index. *)
Theorem retrieve_empty_query
    (this : RetrievalEngine) (query : option string) (topK : Z) :
  query = None
  \/ (exists q, query = Some q /\ all_space q = true)
  \/ tokenize query = [] ->
  retrieve this query topK = [].
Proof.
  intros [-> | [[q [-> Hq]] | Ht]]; [reflexivity| |].
  - unfold retrieve. rewrite (all_space_trim q Hq).
    now rewrite orb_true_r.
  - unfold retrieve. destruct query as [q|]; [|reflexivity].
    destruct (String.eqb q EmptyString || String.eqb (trim q) EmptyString);
      [reflexivity|].
    now rewrite Ht.
Qed.

(** C8 on a query made of short words only. *)
Lemma retrieve_empty_query_witness :
  (Some "is an to" = None
   \/ (exists q, Some "is an to" = Some q /\ all_space q = true)
   \/ tokenize (Some "is an to") = [])
  /\ retrieve Scenario.engine (Some "is an to") 3 = [].
Proof.
  assert (Some "is an to" = None
          \/ (exists q, Some "is an to" = Some q /\ all_space q = true)
          \/ tokenize (Some "is an to") = []) as H
      by (right; right; reflexivity).
  split; [exact H|].
  exact (retrieve_empty_query Scenario.engine (Some "is an to") 3 H).
Defined.

(** C9. On the index of the empty collection [retrieve] gives the empty
    result for every query and every [topK]. *)
Theorem retrieve_empty_collection (query : option string) (topK : Z) :
  retrieve (new_RetrievalEngine (Some [])) query topK = []
  /\ retrieve (new_RetrievalEngine None) query topK = [].
Proof.
  assert (forall (A : Type) k, slice0 k (@nil A) = []) as Hs.
  { intros A k. unfold slice0. simpl. destruct (k <? 0)%Z; apply firstn_nil. }
  change (new_RetrievalEngine None) with (new_RetrievalEngine (Some [])).
  split; (destruct (retrieve_cases (new_RetrievalEngine (Some [])) query topK)
            as [H|H]; [exact H|rewrite H; apply Hs]).
Qed.

(** C10 at the word [constructor].  In the collection of the one document
    [constructor pattern] the term occurs in every document, and its stored
    weight is [NaN], not 0. *)
Theorem constructor_weight_single_document :
  Spec.df "constructor" [Scenario.ctor1] = length [Scenario.ctor1]
  /\ map (fun i => Obj.own (tfidf i) "constructor")
         (calculateTFIDF [Scenario.ctor1])
     = [Some (VNum NaN)]
  /\ map (fun i => Obj.own (tfidf i) "pattern")
         (calculateTFIDF [Scenario.ctor1])
     = [Some (VNum (Fin 0))].
Proof.
  split; [reflexivity|].
  rewrite calculateTFIDF_map. cbn [map tfidf]. split.
  - rewrite tfidf_of_own by (first [discriminate | vm_compute; tauto]).
    now rewrite stored_weight_inherited.
  - rewrite weight_in_every_document;
      first [reflexivity | now left | vm_compute; tauto].
Qed.

(** ** Further properties of the text normalizer *)

Section NormalForm.

Lemma term_or_space_fixed (c : ascii) :
  term_or_space c = true ->
  lower_char c = c /\ (if is_word c || is_space c then c else space) = c.
Proof.
  destruct c as [[] [] [] [] [] [] [] []]; vm_compute; intros H;
    first [discriminate H | split; reflexivity].
Qed.

Lemma replace_lower_fixed s :
  string_forall term_or_space s = true ->
  replace_non_word (toLowerCase s) = s.
Proof.
  unfold replace_non_word, toLowerCase.
  induction s as [|c s IH]; [reflexivity|].
  simpl. intros H. apply andb_true_iff in H as [Hc Hs].
  destruct (term_or_space_fixed c Hc) as [H1 H2].
  rewrite H1, H2. f_equal. now apply IH.
Qed.

Lemma single_spaced_weaken s : single_spaced true s = true -> single_spaced false s = true.
Proof.
  destruct s as [|c s]; [reflexivity|]. simpl.
  destruct (is_space c); [discriminate|auto].
Qed.

Lemma collapse_from_single_spaced b s :
  single_spaced b (collapse_from b s) = true.
Proof.
  revert b. induction s as [|c s IH]; intros b; [reflexivity|].
  simpl. destruct (is_space c) eqn:Hc.
  - destruct b; [apply IH|].
    simpl. apply IH.
  - simpl. rewrite Hc. apply IH.
Qed.

Lemma single_spaced_collapse b s :
  single_spaced b s = true -> collapse_from b s = s.
Proof.
  revert b. induction s as [|c s IH]; intros b; [reflexivity|].
  simpl. destruct (is_space c) eqn:Hc.
  - intros H. apply andb_true_iff in H as [H Hs].
    apply andb_true_iff in H as [Hb Hsp].
    destruct b; [discriminate|].
    apply Ascii.eqb_eq in Hsp. subst c. f_equal. now apply IH.
  - intros H. f_equal. now apply IH.
Qed.

Lemma single_spaced_trimStart s :
  single_spaced false s = true -> single_spaced false (trimStart s) = true.
Proof.
  induction s as [|c s IH]; [reflexivity|].
  intros H. simpl. destruct (is_space c) eqn:Hc; [|exact H].
  apply IH. simpl in H. rewrite Hc in H.
  apply andb_true_iff in H as [_ H]. now apply single_spaced_weaken.
Qed.

Lemma single_spaced_trimEnd b s :
  single_spaced b s = true -> single_spaced b (trimEnd s) = true.
Proof.
  revert b. induction s as [|c s IH]; intros b H; [reflexivity|].
  change (trimEnd (String c s))
    with (if all_space (String c s) then EmptyString else String c (trimEnd s)).
  destruct (all_space (String c s)); [reflexivity|].
  simpl in *. destruct (is_space c).
  - apply andb_true_iff in H as [H Hs]. rewrite H. now apply IH.
  - now apply IH.
Qed.

Lemma all_space_trimEnd s : all_space s = false -> all_space (trimEnd s) = false.
Proof.
  induction s as [|c s IH]; [discriminate|].
  intros H.
  change (trimEnd (String c s))
    with (if all_space (String c s) then EmptyString else String c (trimEnd s)).
  rewrite H. simpl in *. destruct (is_space c); [|reflexivity].
  simpl in *. now apply IH.
Qed.

Lemma trimEnd_idempotent s : trimEnd (trimEnd s) = trimEnd s.
Proof.
  induction s as [|c s IH]; [reflexivity|].
  change (trimEnd (String c s))
    with (if all_space (String c s) then EmptyString else String c (trimEnd s)).
  destruct (all_space (String c s)) eqn:Hall; [reflexivity|].
  change (trimEnd (String c (trimEnd s)))
    with (if all_space (String c (trimEnd s)) then EmptyString
          else String c (trimEnd (trimEnd s))).
  assert (all_space (String c (trimEnd s)) = false) as H.
  { simpl in *. destruct (is_space c); [|reflexivity].
    simpl in *. now apply all_space_trimEnd. }
  now rewrite H, IH.
Qed.

Lemma trimStart_fixed s :
  match s with String c _ => is_space c = false | EmptyString => True end ->
  trimStart s = s.
Proof. destruct s as [|c s]; [reflexivity|]. simpl. now intros ->. Qed.

Lemma trimStart_head s :
  match trimStart s with String c _ => is_space c = false | EmptyString => True end.
Proof.
  induction s as [|c s IH]; [exact I|]. simpl.
  destruct (is_space c) eqn:Hc; [exact IH|exact Hc].
Qed.

Lemma trimEnd_head s :
  match s with String c _ => is_space c = false | EmptyString => True end ->
  match trimEnd s with String c _ => is_space c = false | EmptyString => True end.
Proof.
  destruct s as [|c s]; [auto|]. intros Hc.
  change (trimEnd (String c s))
    with (if all_space (String c s) then EmptyString else String c (trimEnd s)).
  destruct (all_space (String c s)); [exact I|exact Hc].
Qed.

Lemma trim_idempotent s : trim (trim s) = trim s.
Proof.
  unfold trim.
  rewrite (trimStart_fixed (trimEnd (trimStart s)))
    by apply trimEnd_head, trimStart_head.
  apply trimEnd_idempotent.
Qed.

Lemma preprocessText_chars s :
  string_forall term_or_space (preprocessText s) = true.
Proof. apply string_forall_trim, collapse_from_term_or_space. Qed.

Lemma preprocessText_single_spaced s :
  single_spaced false (preprocessText s) = true.
Proof.
  unfold preprocessText, trim.
  apply single_spaced_trimEnd, single_spaced_trimStart, collapse_from_single_spaced.
Qed.

Lemma lower_char_idempotent c : lower_char (lower_char c) = lower_char c.
Proof. destruct c as [[] [] [] [] [] [] [] []]; reflexivity. Qed.

Lemma toLowerCase_idempotent s : toLowerCase (toLowerCase s) = toLowerCase s.
Proof.
  unfold toLowerCase. induction s as [|c s IH]; [reflexivity|].
  simpl. now rewrite lower_char_idempotent, IH.
Qed.

Lemma lower_char_space c : is_space (lower_char c) = is_space c.
Proof. destruct c as [[] [] [] [] [] [] [] []]; reflexivity. Qed.

Lemma all_space_toLowerCase s : all_space (toLowerCase s) = all_space s.
Proof.
  unfold toLowerCase. induction s as [|c s IH]; [reflexivity|].
  simpl. now rewrite lower_char_space, IH.
Qed.

Lemma trimStart_empty s : trimStart s = EmptyString <-> all_space s = true.
Proof.
  induction s as [|c s IH]; [tauto|]. simpl.
  destruct (is_space c); [exact IH|]. split; discriminate.
Qed.

Lemma trimEnd_empty s :
  trimEnd s = EmptyString <-> all_space s = true.
Proof.
  destruct s as [|c s]; [tauto|].
  change (trimEnd (String c s))
    with (if all_space (String c s) then EmptyString else String c (trimEnd s)).
  destruct (all_space (String c s)); split; auto; discriminate.
Qed.

Lemma all_space_trimStart s : all_space (trimStart s) = all_space s.
Proof.
  induction s as [|c s IH]; [reflexivity|]. simpl.
  destruct (is_space c) eqn:Hc; [exact IH|]. simpl. now rewrite Hc.
Qed.

Lemma trim_empty s : trim s = EmptyString <-> all_space s = true.
Proof. unfold trim. now rewrite trimEnd_empty, all_space_trimStart. Qed.

End NormalForm.

(** X1. Every term that [tokenize] returns is longer than two characters and
    consists of lower-case letters, digits and underscores. *)
Theorem terms_well_formed (text : option string) :
  Forall (fun t => 2 < String.length t /\ string_forall term_char t = true)
         (tokenize text).
Proof.
  apply Forall_forall. intros t Ht. now apply (tokenize_terms text).
Qed.

(** X2. [preprocessText] gives a normal form: preprocessing its result again
    changes nothing, and the result has the same terms as the text. *)
Theorem preprocessText_idempotent (s : string) :
  preprocessText (preprocessText s) = preprocessText s
  /\ tokenize (Some (preprocessText s)) = tokenize (Some s).
Proof.
  assert (preprocessText (preprocessText s) = preprocessText s) as H.
  { unfold preprocessText at 1.
    rewrite replace_lower_fixed by apply preprocessText_chars.
    unfold collapse_spaces.
    rewrite single_spaced_collapse by apply preprocessText_single_spaced.
    unfold preprocessText. apply trim_idempotent. }
  split; [exact H|].
  unfold tokenize. rewrite H.
  destruct (String.eqb_spec (preprocessText s) EmptyString) as [He|He].
  - destruct (String.eqb s EmptyString); [reflexivity|]. now rewrite He.
  - destruct (String.eqb_spec s EmptyString) as [->|Hs]; [|reflexivity].
    now contradiction He.
Qed.

Section CaseInsensitive.

Lemma toLowerCase_empty s : String.eqb (toLowerCase s) EmptyString = String.eqb s EmptyString.
Proof. destruct s; reflexivity. Qed.

Lemma tokenize_toLowerCase s : tokenize (Some (toLowerCase s)) = tokenize (Some s).
Proof.
  unfold tokenize, preprocessText.
  now rewrite toLowerCase_empty, toLowerCase_idempotent.
Qed.

Lemma trim_empty_eqb s : String.eqb (trim s) EmptyString = all_space s.
Proof.
  destruct (String.eqb_spec (trim s) EmptyString) as [H|H];
    destruct (all_space s) eqn:Ha; try reflexivity.
  - apply trim_empty in H. congruence.
  - exfalso. apply H. now apply trim_empty.
Qed.

Lemma retrieve_toLowerCase this q topK :
  retrieve this (Some (toLowerCase q)) topK = retrieve this (Some q) topK.
Proof.
  unfold retrieve.
  now rewrite toLowerCase_empty, !trim_empty_eqb, all_space_toLowerCase,
    tokenize_toLowerCase.
Qed.

End CaseInsensitive.

(** X3. Letter case does not matter: two texts with the same lower-casing
    have the same terms, and as queries they retrieve the same results. *)
Theorem case_insensitive (this : RetrievalEngine) (q1 q2 : string) (topK : Z) :
  toLowerCase q1 = toLowerCase q2 ->
  tokenize (Some q1) = tokenize (Some q2)
  /\ retrieve this (Some q1) topK = retrieve this (Some q2) topK.
Proof.
  intros H. split.
  - now rewrite <- (tokenize_toLowerCase q1), H, tokenize_toLowerCase.
  - now rewrite <- (retrieve_toLowerCase this q1), H, retrieve_toLowerCase.
Qed.

(** X3 on two spellings of the query of the scenario. *)
Lemma case_insensitive_witness :
  toLowerCase "Machine Learning" = toLowerCase "MACHINE learning"
  /\ tokenize (Some "Machine Learning") = tokenize (Some "MACHINE learning")
  /\ retrieve Scenario.engine (Some "Machine Learning") 3
     = retrieve Scenario.engine (Some "MACHINE learning") 3.
Proof.
  split; [reflexivity|].
  apply (case_insensitive Scenario.engine "Machine Learning" "MACHINE learning" 3).
  reflexivity.
Defined.

(** ** Further properties of the index and of [retrieve] *)

Section Built.

Variable docs : list Document.

Lemma retrieved_built query topK r :
  In r (retrieve (new_RetrievalEngine (Some docs)) query topK) ->
  exists d,
    In d docs
    /\ indexed r = mkIndexed d (tfidf_of docs d)
    /\ Num.positive (cosineSimilarity (queryVec (tokenize query)) (tfidf_of docs d))
       = true.
Proof.
  intros Hr. apply retrieved_relevant in Hr.
  unfold relevant in Hr. apply filter_In in Hr as [Hin Hpos].
  unfold scored in Hin. apply in_map_iff in Hin as [i [<- Hi]].
  cbn [new_RetrievalEngine documents] in Hi. rewrite calculateTFIDF_map in Hi.
  apply in_map_iff in Hi as [d [<- Hd]].
  exists d. repeat split; assumption.
Qed.

Lemma weight_sign d t :
  In d docs -> In t (Spec.terms_of d) ->
  (0 <= Spec.weight t d docs)%R
  /\ (Spec.weight t d docs = 0%R <-> Spec.df t docs = length docs).
Proof.
  intros Hd Ht.
  pose proof (df_positive docs d t Hd Ht) as Hdf.
  pose proof (df_le_length docs t) as Hle.
  unfold Spec.weight, Spec.tf, Spec.idf, Spec.N.
  replace (Nat.max 1 (length docs)) with (length docs) by lia.
  apply (count_occ_In string_dec) in Ht.
  fold (Spec.occurrences t (Spec.terms_of d)) in Ht.
  set (occ := Spec.occurrences t (Spec.terms_of d)) in *.
  set (len := Nat.max 1 (length (Spec.terms_of d))).
  set (k := Spec.df t docs) in *. set (n := length docs) in *.
  assert (0 < INR occ)%R as Hocc by (apply lt_0_INR; lia).
  assert (0 < INR len)%R as Hlen by (apply lt_0_INR; unfold len; lia).
  assert (0 < INR k)%R as Hk by (apply lt_0_INR; lia).
  assert (0 < INR occ / INR len)%R as Htf by now apply Rdiv_lt_0_compat.
  destruct (Nat.eq_dec k n) as [Heq|Hne].
  - rewrite Heq. unfold Rdiv at 2 4. rewrite Rinv_r by (rewrite <- Heq; lra).
    rewrite ln_1, Rmult_0_r. split; [lra|tauto].
  - assert (INR k < INR n)%R as Hlt by (apply lt_INR; lia).
    assert (1 < INR n / INR k)%R as H1.
    { apply Rmult_lt_reg_r with (INR k); [exact Hk|].
      unfold Rdiv. rewrite Rmult_assoc, Rinv_l by lra. lra. }
    assert (0 < ln (INR n / INR k))%R as Hln
        by (rewrite <- ln_1; apply ln_increasing; lra).
    assert (0 < INR occ / INR len * ln (INR n / INR k))%R
      by now apply Rmult_lt_0_compat.
    split; [lra|]. split; [lra|contradiction].
Qed.

End Built.

(** X4. An index built from a collection returns only documents that share
    at least one term with the query. *)
Theorem results_share_a_term
    (docs : list Document) (query : option string) (topK : Z) :
  Forall (fun r => exists t,
              In t (tokenize query)
              /\ In t (tokenize (Some (content_or_empty (doc (indexed r))))))
         (retrieve (new_RetrievalEngine (Some docs)) query topK).
Proof.
  apply Forall_forall. intros r Hr.
  destruct (retrieved_built docs query topK r Hr) as [d [Hd [Hi Hpos]]].
  rewrite Hi. cbn [doc]. rewrite terms_of_tokenize.
  destruct (existsb (fun t => existsb (String.eqb t) (Spec.terms_of d))
                    (tokenize query)) eqn:He.
  - apply existsb_exists in He as [t [Ht Hin]].
    exists t. split; [exact Ht|now apply existsb_eqb_In].
  - exfalso.
    rewrite (no_shared_term docs d (tokenize query)) in Hpos; [discriminate|].
    intros t Ht Hin.
    assert (existsb (fun t => existsb (String.eqb t) (Spec.terms_of d))
                    (tokenize query) = true); [|congruence].
    apply existsb_exists. exists t. split; [exact Ht|now apply existsb_eqb_In].
Qed.

(** X5. In an index built from a collection no stored weight is negative,
    and a stored weight is 0 exactly when its term occurs in every document
    of the collection. *)
Theorem weights_nonnegative (docs : list Document) :
  Forall (fun i => forall t x,
              Obj.own (tfidf i) t = Some (VNum (Fin x)) ->
              (0 <= x)%R /\ (x = 0%R <-> Spec.df t docs = length docs))
         (calculateTFIDF docs).
Proof.
  apply Forall_forall. intros i Hi t x Hx.
  rewrite calculateTFIDF_map in Hi. apply in_map_iff in Hi as [d [<- Hd]].
  cbn [tfidf] in Hx.
  assert (In t (Spec.terms_of d) /\ t <> "__proto__") as [Ht Hp].
  { apply (proj1 (tfidf_of_keys docs d t)). apply own_keys. congruence. }
  rewrite tfidf_of_own in Hx by assumption.
  destruct (plain_dec t) as [Hpl|Hinh].
  - rewrite stored_weight_plain in Hx by assumption.
    injection Hx as <-. now apply weight_sign.
  - rewrite stored_weight_inherited in Hx by assumption. discriminate.
Qed.

(** X6. A document that holds the word [constructor] is never returned,
    whatever the query. *)
Theorem constructor_never_returned
    (docs : list Document) (query : option string) (topK : Z) :
  Forall (fun r => ~ In "constructor"
                        (tokenize (Some (content_or_empty (doc (indexed r))))))
         (retrieve (new_RetrievalEngine (Some docs)) query topK).
Proof.
  apply Forall_forall. intros r Hr Hc.
  destruct (retrieved_built docs query topK r Hr) as [d [Hd [Hi Hpos]]].
  rewrite Hi in Hc. cbn [doc] in Hc. rewrite terms_of_tokenize in Hc.
  rewrite (constructor_in_document docs d (tokenize query) Hc) in Hpos.
  discriminate.
Qed.

Section CollectionOrder.

Lemma df_permutation t docs docs' :
  Permutation docs docs' -> Spec.df t docs = Spec.df t docs'.
Proof.
  unfold Spec.df.
  induction 1 as [|d l l' _ IH|d d' l|l l' l'' _ IH1 _ IH2];
    cbn [filter]; try reflexivity.
  - destruct (existsb _ _); simpl; now rewrite IH.
  - now repeat destruct (existsb _ _).
  - now rewrite IH1.
Qed.

Lemma stored_weight_permutation docs docs' d t :
  Permutation docs docs' -> In d docs -> In t (Spec.terms_of d) ->
  stored_weight docs (termDocFreq docs) (Spec.terms_of d)
                (termFreq (Spec.terms_of d)) t
  = stored_weight docs' (termDocFreq docs') (Spec.terms_of d)
                  (termFreq (Spec.terms_of d)) t.
Proof.
  intros Hp Hd Ht. destruct (plain_dec t) as [Hpl|Hinh].
  - rewrite !stored_weight_plain;
      try assumption; try (now apply (Permutation_in d Hp)).
    unfold Spec.weight, Spec.idf, Spec.N.
    now rewrite (df_permutation t docs docs' Hp), (Permutation_length Hp).
  - now rewrite !stored_weight_inherited.
Qed.

Lemma fold_tfidf_entry_ext docs fa docs' fa' terms freq ks acc :
  (forall t, In t ks ->
             stored_weight docs fa terms freq t = stored_weight docs' fa' terms freq t) ->
  fold_left (tfidf_entry docs fa terms freq) ks acc
  = fold_left (tfidf_entry docs' fa' terms freq) ks acc.
Proof.
  revert acc. induction ks as [|k ks IH]; intros acc H; [reflexivity|].
  cbn [fold_left].
  replace (tfidf_entry docs fa terms freq acc k)
    with (tfidf_entry docs' fa' terms freq acc k).
  - apply IH. intros t Ht. apply H. now right.
  - unfold tfidf_entry.
    fold (stored_weight docs fa terms freq k).
    fold (stored_weight docs' fa' terms freq k).
    now rewrite (H k (or_introl eq_refl)).
Qed.

Lemma tfidf_of_permutation docs docs' d :
  Permutation docs docs' -> In d docs -> tfidf_of docs d = tfidf_of docs' d.
Proof.
  intros Hp Hd. unfold tfidf_of. rewrite terms_of_tokenize.
  apply fold_tfidf_entry_ext. intros t Ht.
  apply stored_weight_permutation; try assumption.
  now apply termFreq_keys in Ht.
Qed.

Lemma termDocFreq_contents docs docs' acc :
  map content docs = map content docs' ->
  fold_left
    (fun freq d =>
       fold_left count_term (new_Set (tokenize (Some (content_or_empty d)))) freq)
    docs acc
  = fold_left
      (fun freq d =>
         fold_left count_term (new_Set (tokenize (Some (content_or_empty d)))) freq)
      docs' acc.
Proof.
  revert docs' acc. induction docs as [|d docs IH]; intros [|d' docs'] acc H;
    try discriminate; [reflexivity|].
  cbn [map] in H. injection H as Hc Hrest. cbn [fold_left].
  assert (content_or_empty d = content_or_empty d') as ->
      by (unfold content_or_empty; now rewrite Hc).
  now apply IH.
Qed.

Lemma tfidf_of_contents docs docs' d d' :
  map content docs = map content docs' -> content d = content d' ->
  tfidf_of docs d = tfidf_of docs' d'.
Proof.
  intros H Hc. unfold tfidf_of, termDocFreq.
  assert (content_or_empty d = content_or_empty d') as ->
      by (unfold content_or_empty; now rewrite Hc).
  rewrite (termDocFreq_contents docs docs' Obj.empty H).
  unfold tfidf_entry, docCount.
  assert (length docs = length docs') as ->
      by (rewrite <- (length_map content docs), H; apply length_map).
  reflexivity.
Qed.

End CollectionOrder.

(** X7. The order of the collection does not matter to the index: building
    from a reordered collection gives the same documents with the same
    weight vectors, reordered. *)
Theorem calculateTFIDF_permutation (docs docs' : list Document) :
  Permutation docs docs' ->
  Permutation (calculateTFIDF docs) (calculateTFIDF docs').
Proof.
  intros Hp. rewrite !calculateTFIDF_map.
  rewrite (map_ext_in (fun d => mkIndexed d (tfidf_of docs' d))
                      (fun d => mkIndexed d (tfidf_of docs d)) docs').
  - now apply Permutation_map.
  - intros d Hd. f_equal. symmetry. apply tfidf_of_permutation; [exact Hp|].
    now apply (Permutation_in d (Permutation_sym Hp)).
Qed.

(** X7 on the collection of the scenario and a reordering of it. *)
Lemma calculateTFIDF_permutation_witness :
  Permutation Scenario.collection [Scenario.doc3; Scenario.doc1; Scenario.doc2]
  /\ Permutation (calculateTFIDF Scenario.collection)
                 (calculateTFIDF [Scenario.doc3; Scenario.doc1; Scenario.doc2]).
Proof.
  assert (Permutation Scenario.collection
                      [Scenario.doc3; Scenario.doc1; Scenario.doc2]) as H.
  { unfold Scenario.collection.
    apply (Permutation_cons_app [Scenario.doc3] [Scenario.doc2]). simpl.
    apply perm_swap. }
  split; [exact H|].
  exact (calculateTFIDF_permutation _ _ H).
Defined.

(** X8. Only the contents are indexed: two collections with the same
    contents, whatever their ids, titles and timestamps, get the same weight
    vectors. *)
Theorem calculateTFIDF_contents (docs docs' : list Document) :
  map content docs = map content docs' ->
  map tfidf (calculateTFIDF docs) = map tfidf (calculateTFIDF docs').
Proof.
  intros H. rewrite !calculateTFIDF_map, !map_map. cbn [tfidf].
  assert (forall l l',
             map content l = map content l' ->
             map (fun d => tfidf_of docs d) l = map (fun d => tfidf_of docs' d) l') as Hm.
  { induction l as [|d l IH]; intros [|d' l'] Hl; try discriminate; [reflexivity|].
    cbn [map] in *. injection Hl as Hc Hl.
    now rewrite (IH l' Hl), (tfidf_of_contents docs docs' d d' H Hc). }
  now apply Hm.
Qed.

(** X8 on the collection of the scenario and the same contents under other
    ids, titles and timestamps. *)
Lemma calculateTFIDF_contents_witness :
  map content Scenario.collection
  = map content
        [mkDocument 7 "machine learning" (content Scenario.doc1) "1999";
         mkDocument 7 "cats" (content Scenario.doc2) "2000";
         mkDocument 9 "" (content Scenario.doc3) "2001"]
  /\ map tfidf (calculateTFIDF Scenario.collection)
     = map tfidf
           (calculateTFIDF
              [mkDocument 7 "machine learning" (content Scenario.doc1) "1999";
               mkDocument 7 "cats" (content Scenario.doc2) "2000";
               mkDocument 9 "" (content Scenario.doc3) "2001"]).
Proof.
  split; [reflexivity|].
  apply (calculateTFIDF_contents Scenario.collection). reflexivity.
Defined.

Section TopK.

Variable this : RetrievalEngine.


Lemma all_space_replaced q :
  all_space q = true -> all_space (replace_non_word (toLowerCase q)) = true.
Proof.
  unfold replace_non_word, toLowerCase.
  induction q as [|c q IH]; [reflexivity|].
  simpl. intros H. apply andb_true_iff in H as [Hc Hq].
  rewrite <- lower_char_space in Hc. rewrite Hc, orb_true_r, Hc. now apply IH.
Qed.

Lemma tokenize_all_space q : all_space q = true -> tokenize (Some q) = [].
Proof.
  intros H. rewrite tokenize_normalize, normalize_words.
  now rewrite words_all_space by now apply all_space_replaced.
Qed.

Lemma relevant_no_terms : relevant this (queryVec []) = [].
Proof.
  apply relevant_none. intros d _.
  apply cosine_orthogonal, null_product. intros t. left.
  now apply null_at_absent.
Qed.

(** Where [retrieve] returns before scoring, the query has no term and no
    document is relevant. *)
Lemma retrieve_sorted_slice query topK :
  retrieve this query topK
  = slice0 topK (sort lower_score (relevant this (queryVec (tokenize query)))).
Proof.
  assert (forall k, slice0 k (sort lower_score (relevant this (queryVec [])))
                    = []) as Hnil.
  { intros k. rewrite relevant_no_terms. unfold slice0. simpl.
    destruct (k <? 0)%Z; apply firstn_nil. }
  unfold retrieve, relevant. destruct query as [q|]; [|symmetry; apply Hnil].
  destruct (String.eqb_spec q EmptyString) as [->|Hq]; [symmetry; apply Hnil|].
  rewrite trim_empty_eqb. cbn [orb].
  destruct (all_space q) eqn:Hs.
  - rewrite (tokenize_all_space q Hs). symmetry. apply Hnil.
  - destruct (tokenize (Some q)) eqn:Ht; [symmetry; apply Hnil|reflexivity].
Qed.

End TopK.


(** X10. The number of results: for [topK >= 0] the smaller of [topK] and
    the number of documents of strictly positive similarity; a negative
    [topK] leaves that many of the lowest results out instead. *)
Theorem retrieve_length
    (this : RetrievalEngine) (query : option string) (topK : Z) :
  let n := length (filter (fun d => Num.positive
                                      (cosineSimilarity (queryVec (tokenize query))
                                                        (tfidf d)))
                          (documents this)) in
  length (retrieve this query topK)
  = if (topK <? 0)%Z then Z.to_nat (Z.of_nat n + topK)
    else Nat.min (Z.to_nat topK) n.
Proof.
  intros n. rewrite retrieve_sorted_slice. unfold slice0.
  assert (length (sort lower_score (relevant this (queryVec (tokenize query)))) = n)
    as Hn.
  { rewrite (Permutation_length (sort_perm lower_score _)). apply relevant_length. }
  destruct (Z.ltb_spec topK 0); rewrite length_firstn, Hn; lia.
Qed.

(** X11. Asking for more results keeps the results already had: for
    [0 <= k1 <= k2] the results for [k1] are the first results for [k2]. *)
Theorem retrieve_prefix
    (this : RetrievalEngine) (query : option string) (k1 k2 : Z) :
  (0 <= k1 <= k2)%Z ->
  exists rest, retrieve this query k2 = retrieve this query k1 ++ rest.
Proof.
  intros [H1 H2].
  rewrite (retrieve_sorted_slice this query k1), (retrieve_sorted_slice this query k2).
  unfold slice0.
  destruct (Z.ltb_spec k1 0); [lia|]. destruct (Z.ltb_spec k2 0); [lia|].
  set (l := sort lower_score _).
  exists (skipn (Z.to_nat k1) (firstn (Z.to_nat k2) l)).
  rewrite <- (firstn_skipn (Z.to_nat k1) (firstn (Z.to_nat k2) l)) at 1.
  f_equal. rewrite firstn_firstn. f_equal. lia.
Qed.

(** X11 on the scenario, from one result asked for to three. *)
Lemma retrieve_prefix_witness :
  (0 <= 1 <= 3)%Z
  /\ exists rest,
       retrieve Scenario.engine Scenario.query 3
       = retrieve Scenario.engine Scenario.query 1 ++ rest.
Proof.
  split; [lia|].
  apply (retrieve_prefix Scenario.engine Scenario.query 1 3). lia.
Defined.

Section Distinct.

Lemma NoDup_map_filter {A B : Type} (g : A -> B) (p : A -> bool) (l : list A) :
  NoDup (map g l) -> NoDup (map g (filter p l)).
Proof.
  induction l as [|x l IH]; [auto|]. cbn [map filter]. intros H.
  apply NoDup_cons_iff in H as [Hx Hl].
  destruct (p x); [|now apply IH].
  cbn [map]. constructor; [|now apply IH].
  intros Hin. apply Hx. apply in_map_iff in Hin as [y [Hy Hin]].
  apply filter_In in Hin as [Hin _]. apply in_map_iff. now exists y.
Qed.

Lemma NoDup_map_firstn {A B : Type} (g : A -> B) (n : nat) (l : list A) :
  NoDup (map g l) -> NoDup (map g (firstn n l)).
Proof.
  revert n. induction l as [|x l IH]; intros [|n] H; try constructor.
  - apply NoDup_cons_iff in H as [Hx Hl].
    intros Hin. apply Hx. apply in_map_iff in Hin as [y [Hy Hin]].
    apply In_firstn in Hin. apply in_map_iff. now exists y.
  - apply NoDup_cons_iff in H as [Hx Hl]. now apply IH.
Qed.

End Distinct.

(** X12. No document is returned twice: when the documents of the index
    have distinct ids, so have the results, and each result is a document
    of the index scored with its cosine similarity to the query. *)
Theorem retrieve_distinct
    (this : RetrievalEngine) (query : option string) (topK : Z) :
  NoDup (map (fun i => doc_id (doc i)) (documents this)) ->
  NoDup (map (fun r => doc_id (doc (indexed r))) (retrieve this query topK))
  /\ Forall (fun r => In (indexed r) (documents this)
                      /\ score r = cosineSimilarity (queryVec (tokenize query))
                                                    (tfidf (indexed r)))
            (retrieve this query topK).
Proof.
  intros Hnd. split.
  - rewrite retrieve_sorted_slice.
    set (qv := queryVec (tokenize query)).
    destruct (slice0_firstn topK (sort lower_score (relevant this qv))) as [n ->].
    apply NoDup_map_firstn.
    apply (Permutation_NoDup
             (l := map (fun r => doc_id (doc (indexed r))) (relevant this qv))).
    + apply Permutation_map. symmetry. apply sort_perm.
    + unfold relevant. apply NoDup_map_filter.
      unfold scored. rewrite map_map. exact Hnd.
  - apply Forall_forall. intros r Hr. apply retrieved_relevant in Hr.
    unfold relevant in Hr. apply filter_In in Hr as [Hr _].
    split; [|exact (scored_score this _ r Hr)].
    unfold scored in Hr. apply in_map_iff in Hr as [i [<- Hi]]. exact Hi.
Qed.

(** X12 on the scenario, whose documents have the ids 1, 2 and 3. *)
Lemma retrieve_distinct_witness :
  NoDup (map (fun i => doc_id (doc i)) (documents Scenario.engine))
  /\ NoDup (map (fun r => doc_id (doc (indexed r)))
                (retrieve Scenario.engine Scenario.query 3))
  /\ Forall (fun r => In (indexed r) (documents Scenario.engine)
                      /\ score r = cosineSimilarity
                                     (queryVec (tokenize Scenario.query))
                                     (tfidf (indexed r)))
            (retrieve Scenario.engine Scenario.query 3).
Proof.
  assert (NoDup (map (fun i => doc_id (doc i)) (documents Scenario.engine))) as H.
  { change (NoDup [1%Z; 2%Z; 3%Z]).
    repeat constructor; simpl; intuition discriminate. }
  split; [exact H|].
  exact (retrieve_distinct Scenario.engine Scenario.query 3 H).
Defined.

Section Symmetry.




End Symmetry.


(** ** Properties of the chat application *)

Section Application.

Local Open Scope string_scope.

Lemma blank_all_space s : App.blank s = all_space s.
Proof. apply trim_empty_eqb. Qed.

Lemma before_fetch_blank q st :
  all_space q = true -> App.before_fetch (Some q) st = (st, None).
Proof.
  intros H. unfold App.before_fetch. now rewrite blank_all_space, H, orb_true_r.
Qed.

Lemma not_blank_not_empty q : all_space q = false -> String.eqb q EmptyString = false.
Proof. destruct q; [discriminate|reflexivity]. Qed.

Lemma before_fetch_asked q st :
  all_space q = false ->
  App.before_fetch (Some q) st
  = match App.documents st with
    | [] =>
        (App.mkState (App.documents st)
                     (App.messages st ++ [App.user_message q; App.no_documents_message])
                     (App.isProcessing st) (App.isSidebarOpen st) (App.isMobile st),
         None)
    | _ =>
        match retrieve (new_RetrievalEngine (Some (App.documents st))) (Some q) 3 with
        | [] =>
            (App.mkState (App.documents st)
                         (App.messages st ++ [App.user_message q]
                          ++ [App.not_found_message])
                         false (App.isSidebarOpen st) (App.isMobile st),
             None)
        | r :: rs =>
            (App.mkState (App.documents st) (App.messages st ++ [App.user_message q])
                         true (App.isSidebarOpen st) (App.isMobile st),
             Some (App.request (r :: rs) q, r :: rs))
        end
    end.
Proof.
  intros H. unfold App.before_fetch.
  rewrite blank_all_space, H, (not_blank_not_empty q H). cbn [orb].
  destruct (App.documents st); [reflexivity|].
  destruct (retrieve _ _ _); reflexivity.
Qed.

Lemma retrieve_at_most_3 this query : length (retrieve this query 3) <= 3.
Proof.
  destruct (retrieve_cases this query 3) as [-> | ->]; [simpl; lia|].
  pose proof (slice0_length 3 (sort lower_score
                                 (relevant this (queryVec (tokenize query))))).
  lia.
Qed.

Lemma occurs_in_append_r sub a b : occurs_in sub b -> occurs_in sub (a ++ b).
Proof.
  intros [x [y ->]]. exists (a ++ x), y.
  induction a as [|c a IH]; [reflexivity|]. simpl. now rewrite IH.
Qed.

Lemma occurs_in_append_l sub a b : occurs_in sub a -> occurs_in sub (a ++ b).
Proof.
  intros [x [y ->]]. exists x, (y ++ b).
  induction x as [|c x IH]; simpl.
  - induction sub as [|c sub IH]; simpl; [reflexivity|]. now rewrite IH.
  - now rewrite IH.
Qed.

Lemma occurs_in_refl s : occurs_in s s.
Proof.
  exists EmptyString, EmptyString. simpl.
  induction s as [|c s IH]; [reflexivity|]. simpl. now rewrite <- IH.
Qed.

Lemma occurs_in_join sep l x sub :
  In x l -> occurs_in sub x -> occurs_in sub (App.join sep l).
Proof.
  intros Hin Hsub. induction l as [|y l IH]; [destruct Hin|].
  destruct Hin as [->|Hin].
  - destruct l; [exact Hsub|]. cbn [App.join]. now apply occurs_in_append_l.
  - destruct l as [|z l]; [destruct Hin|].
    cbn [App.join]. apply occurs_in_append_r, occurs_in_append_r.
    now apply IH.
Qed.

End Application.

(** X14. Adding a document and deleting it again by its id gives the
    documents back, when no other document has that id. *)
Theorem delete_added_document (d : Document) (st : App.State) :
  Forall (fun d' => doc_id d' <> doc_id d) (App.documents st) ->
  App.documents (App.handleDeleteDocument (doc_id d) (App.handleAddDocument d st))
  = App.documents st.
Proof.
  intros H. cbn [App.handleDeleteDocument App.handleAddDocument App.documents].
  rewrite filter_app. cbn [filter]. rewrite Z.eqb_refl. cbn [negb].
  rewrite app_nil_r.
  induction (App.documents st) as [|d' l IH]; [reflexivity|].
  apply Forall_cons_iff in H as [Hd' Hl]. cbn [filter].
  destruct (Z.eqb_spec (doc_id d') (doc_id d)); [contradiction|].
  cbn [negb]. f_equal. now apply IH.
Qed.

(** X14 on the first state of the application and a document of id 2. *)
Lemma delete_added_document_witness :
  Forall (fun d' => doc_id d' <> doc_id Scenario.doc2)
         (App.documents (App.initial "2025-01-01T00:00:00.000Z" false))
  /\ App.documents
       (App.handleDeleteDocument (doc_id Scenario.doc2)
          (App.handleAddDocument Scenario.doc2
             (App.initial "2025-01-01T00:00:00.000Z" false)))
     = App.documents (App.initial "2025-01-01T00:00:00.000Z" false).
Proof.
  assert (Forall (fun d' => doc_id d' <> doc_id Scenario.doc2)
                 (App.documents (App.initial "2025-01-01T00:00:00.000Z" false)))
    as H by (repeat constructor; discriminate).
  split; [exact H|].
  exact (delete_added_document Scenario.doc2 _ H).
Defined.

(** X15. Deleting by id after adding a document: a document of another
    id stays last; a document of that id goes, and with it every stored
    document of the same id. *)
Theorem delete_after_add (d : Document) (id : Z) (st : App.State) :
  App.documents (App.handleDeleteDocument id (App.handleAddDocument d st))
  = (if Z.eqb (doc_id d) id
     then App.documents (App.handleDeleteDocument id st)
     else App.documents (App.handleDeleteDocument id st) ++ [d])
  /\ Forall (fun d' => doc_id d' <> id)
            (App.documents (App.handleDeleteDocument id (App.handleAddDocument d st))).
Proof.
  cbn [App.handleDeleteDocument App.handleAddDocument App.documents].
  split.
  - rewrite filter_app. cbn [filter].
    destruct (Z.eqb (doc_id d) id); cbn [negb]; [apply app_nil_r|reflexivity].
  - apply Forall_forall. intros d' Hd'. apply filter_In in Hd' as [_ Hd'].
    destruct (Z.eqb_spec (doc_id d') id); [discriminate|assumption].
Qed.

(** X16. The form saves nothing when the title or the content is white
    space only: form and application stay as they are. *)
Theorem save_document_blank
    (now : Z) (iso : string) (f : App.Form) (st : App.State) :
  all_space (App.newDocTitle f) = true \/ all_space (App.newDocContent f) = true ->
  App.save_document now iso f st = (f, st).
Proof.
  intros H. unfold App.save_document, App.form_handleAddDocument.
  rewrite !blank_all_space.
  destruct H as [-> | ->]; [reflexivity|now rewrite orb_true_r].
Qed.

(** X16 on a form with a title and a content of spaces. *)
Lemma save_document_blank_witness :
  (all_space (App.newDocTitle (App.mkForm "Notes" "   " true)) = true
   \/ all_space (App.newDocContent (App.mkForm "Notes" "   " true)) = true)
  /\ App.save_document 5 "2025-01-01T00:00:00.000Z" (App.mkForm "Notes" "   " true)
       (App.initial "2025-01-01T00:00:00.000Z" false)
     = (App.mkForm "Notes" "   " true, App.initial "2025-01-01T00:00:00.000Z" false).
Proof.
  assert (all_space (App.newDocTitle (App.mkForm "Notes" "   " true)) = true
          \/ all_space (App.newDocContent (App.mkForm "Notes" "   " true)) = true)
    as H by (right; reflexivity).
  split; [exact H|].
  exact (save_document_blank 5 _ _ _ H).
Defined.

(** X17. A saved document enters the collection last, with the title and
    the content as typed, and the form is reset. *)
Theorem save_document_added
    (now : Z) (iso : string) (f : App.Form) (st : App.State) :
  all_space (App.newDocTitle f) = false ->
  all_space (App.newDocContent f) = false ->
  App.save_document now iso f st
  = (App.mkForm EmptyString EmptyString false,
     App.handleAddDocument
       (mkDocument now (App.newDocTitle f) (Some (App.newDocContent f)) iso) st)
  /\ App.documents (snd (App.save_document now iso f st))
     = App.documents st
       ++ [mkDocument now (App.newDocTitle f) (Some (App.newDocContent f)) iso].
Proof.
  intros H1 H2. unfold App.save_document, App.form_handleAddDocument.
  rewrite !blank_all_space, H1, H2. split; reflexivity.
Qed.

(** X17 on a form with text in both fields. *)
Lemma save_document_added_witness :
  all_space (App.newDocTitle (App.mkForm "Notes" " cats " true)) = false
  /\ all_space (App.newDocContent (App.mkForm "Notes" " cats " true)) = false
  /\ App.save_document 5 "t" (App.mkForm "Notes" " cats " true) (App.initial "t" false)
     = (App.mkForm EmptyString EmptyString false,
        App.handleAddDocument (mkDocument 5 "Notes" (Some " cats ") "t")
                              (App.initial "t" false))
  /\ App.documents
       (snd (App.save_document 5 "t" (App.mkForm "Notes" " cats " true)
                               (App.initial "t" false)))
     = App.documents (App.initial "t" false)
       ++ [mkDocument 5 "Notes" (Some " cats ") "t"].
Proof.
  split; [reflexivity|]. split; [reflexivity|].
  apply (save_document_added 5 "t" (App.mkForm "Notes" " cats " true)
                             (App.initial "t" false));
    reflexivity.
Defined.

(** X18. A question that is absent, empty or white space only changes
    nothing and asks nothing of the back end. *)
Theorem handleSendMessage_blank
    (fetch : App.Request -> App.FetchResult) (query : option string)
    (st : App.State) :
  query = None \/ (exists q, query = Some q /\ all_space q = true) ->
  App.before_fetch query st = (st, None)
  /\ App.handleSendMessage fetch query st = st.
Proof.
  intros [-> | [q [-> Hq]]].
  - split; reflexivity.
  - unfold App.handleSendMessage. rewrite (before_fetch_blank q st Hq).
    split; reflexivity.
Qed.

(** X18 on a question of two spaces. *)
Lemma handleSendMessage_blank_witness :
  (Some "  " = None \/ (exists q, Some "  " = Some q /\ all_space q = true))
  /\ App.before_fetch (Some "  ") (App.initial "t" false)
     = (App.initial "t" false, None)
  /\ App.handleSendMessage (fun _ => App.Rejected "Failed to fetch") (Some "  ")
       (App.initial "t" false)
     = App.initial "t" false.
Proof.
  assert (Some "  " = None \/ (exists q, Some "  " = Some q /\ all_space q = true))
    as H by (right; exists "  "; split; reflexivity).
  split; [exact H|].
  exact (handleSendMessage_blank (fun _ => App.Rejected "Failed to fetch")
                                 (Some "  ") (App.initial "t" false) H).
Defined.

(** X19. With no document in the store, a question is answered at once by
    the request to add documents: the question and that answer are appended,
    nothing is asked of the back end, and the processing flag is not
    touched. *)
Theorem handleSendMessage_no_documents
    (fetch : App.Request -> App.FetchResult) (q : string) (st : App.State) :
  all_space q = false ->
  App.documents st = [] ->
  snd (App.before_fetch (Some q) st) = None
  /\ App.handleSendMessage fetch (Some q) st
     = App.mkState [] (App.messages st
                       ++ [App.user_message q; App.no_documents_message])
                   (App.isProcessing st) (App.isSidebarOpen st) (App.isMobile st).
Proof.
  intros Hq Hd. unfold App.handleSendMessage.
  rewrite (before_fetch_asked q st Hq), Hd. split; reflexivity.
Qed.

(** X19 after the sample document has been deleted. *)
Lemma handleSendMessage_no_documents_witness :
  all_space "what is learning" = false
  /\ App.documents (App.handleDeleteDocument 1 (App.initial "t" false)) = []
  /\ snd (App.before_fetch (Some "what is learning")
            (App.handleDeleteDocument 1 (App.initial "t" false))) = None
  /\ App.handleSendMessage (fun _ => App.Rejected "Failed to fetch")
       (Some "what is learning")
       (App.handleDeleteDocument 1 (App.initial "t" false))
     = App.mkState []
         (App.messages (App.handleDeleteDocument 1 (App.initial "t" false))
          ++ [App.user_message "what is learning"; App.no_documents_message])
         (App.isProcessing (App.handleDeleteDocument 1 (App.initial "t" false)))
         (App.isSidebarOpen (App.handleDeleteDocument 1 (App.initial "t" false)))
         (App.isMobile (App.handleDeleteDocument 1 (App.initial "t" false))).
Proof.
  split; [reflexivity|]. split; [reflexivity|].
  apply (handleSendMessage_no_documents (fun _ => App.Rejected "Failed to fetch")
           "what is learning"
           (App.handleDeleteDocument 1 (App.initial "t" false)));
    reflexivity.
Defined.

(** X20. With one document in the store, as in the first state of the
    application, every question gets the answer that no relevant document
    was found, and the back end is never asked. *)
Theorem handleSendMessage_single_document
    (fetch : App.Request -> App.FetchResult) (q : string) (d : Document)
    (st : App.State) :
  all_space q = false ->
  App.documents st = [d] ->
  snd (App.before_fetch (Some q) st) = None
  /\ App.handleSendMessage fetch (Some q) st
     = App.mkState [d] (App.messages st
                        ++ [App.user_message q; App.not_found_message])
                   false (App.isSidebarOpen st) (App.isMobile st).
Proof.
  intros Hq Hd. unfold App.handleSendMessage.
  rewrite (before_fetch_asked q st Hq), Hd.
  rewrite (retrieve_none _ _ _ (single_document_irrelevant d _)).
  split; reflexivity.
Qed.

(** X20 on the first state and a question made of words of the sample
    document. *)
Lemma handleSendMessage_single_document_witness :
  all_space "machine learning" = false
  /\ App.documents (App.initial "t" false) = [App.sample_document "t"]
  /\ snd (App.before_fetch (Some "machine learning") (App.initial "t" false)) = None
  /\ App.handleSendMessage (fun _ => App.Parsed true (Some "An answer."))
       (Some "machine learning") (App.initial "t" false)
     = App.mkState [App.sample_document "t"]
         (App.messages (App.initial "t" false)
          ++ [App.user_message "machine learning"; App.not_found_message])
         false (App.isSidebarOpen (App.initial "t" false))
         (App.isMobile (App.initial "t" false)).
Proof.
  split; [reflexivity|]. split; [reflexivity|].
  apply (handleSendMessage_single_document
           (fun _ => App.Parsed true (Some "An answer."))
           "machine learning" (App.sample_document "t") (App.initial "t" false));
    reflexivity.
Defined.

(** X21. Whatever the back end does, a question that is not blank adds two
    messages to the conversation, the question and then one answer of the
    assistant that carries a status; the documents are left as they are, and
    when there are documents the processing flag is off at the end. *)
Theorem handleSendMessage_two_messages
    (fetch : App.Request -> App.FetchResult) (q : string) (st : App.State) :
  all_space q = false ->
  exists m,
    App.messages (App.handleSendMessage fetch (Some q) st)
    = App.messages st ++ [App.user_message q; m]
    /\ App.role m = "assistant"
    /\ (App.status m = Some "success" \/ App.status m = Some "warning"
        \/ App.status m = Some "error")
    /\ App.documents (App.handleSendMessage fetch (Some q) st) = App.documents st
    /\ (App.documents st <> [] ->
        App.isProcessing (App.handleSendMessage fetch (Some q) st) = false).
Proof.
  intros Hq. unfold App.handleSendMessage.
  rewrite (before_fetch_asked q st Hq).
  destruct (App.documents st) as [|d ds] eqn:Hd.
  - exists App.no_documents_message. cbn.
    repeat split; auto. intros H. now elim H.
  - destruct (retrieve _ _ _) as [|r rs].
    + exists App.not_found_message. cbn. repeat split; auto.
    + exists (App.reply (r :: rs) (fetch (App.request (r :: rs) q))).
      cbn [App.after_fetch App.messages App.documents App.isProcessing].
      rewrite <- app_assoc. cbn [app].
      repeat split; auto.
      * destruct (fetch _) as [e|c e|[|] [[|c s]|]]; reflexivity.
      * destruct (fetch _) as [e|c e|[|] [[|c s]|]]; cbn; auto.
Qed.

(** X21 on the three documents of the scenario and a back end that fails. *)
Lemma handleSendMessage_two_messages_witness :
  all_space "machine learning" = false
  /\ exists m,
       App.messages
         (App.handleSendMessage (fun _ => App.Rejected "Failed to fetch")
            (Some "machine learning")
            (App.mkState Scenario.collection [] false false false))
       = App.messages (App.mkState Scenario.collection [] false false false)
         ++ [App.user_message "machine learning"; m]
       /\ App.role m = "assistant"
       /\ (App.status m = Some "success" \/ App.status m = Some "warning"
           \/ App.status m = Some "error")
       /\ App.documents
            (App.handleSendMessage (fun _ => App.Rejected "Failed to fetch")
               (Some "machine learning")
               (App.mkState Scenario.collection [] false false false))
          = App.documents (App.mkState Scenario.collection [] false false false)
       /\ (App.documents (App.mkState Scenario.collection [] false false false) <> [] ->
           App.isProcessing
             (App.handleSendMessage (fun _ => App.Rejected "Failed to fetch")
                (Some "machine learning")
                (App.mkState Scenario.collection [] false false false))
           = false).
Proof.
  split; [reflexivity|].
  apply (handleSendMessage_two_messages (fun _ => App.Rejected "Failed to fetch")
           "machine learning"
           (App.mkState Scenario.collection [] false false false)).
  reflexivity.
Defined.

(** X22. The back end is asked only with documents retrieved: the request
    goes out for the one to three documents that [retrieve] returns for the
    question among the stored documents, it holds one message, of the user,
    and the processing flag is on while it is out. *)
Theorem request_sent
    (query : option string) (st st' : App.State) (req : App.Request)
    (retrieved : list ScoredDocument) :
  App.before_fetch query st = (st', Some (req, retrieved)) ->
  exists q,
    query = Some q
    /\ all_space q = false
    /\ retrieved = retrieve (new_RetrievalEngine (Some (App.documents st))) query 3
    /\ 1 <= length retrieved <= 3
    /\ req = App.mkRequest "gemini-1.5-flash"
                           [App.mkChatMessage "user" (App.prompt retrieved q)]
    /\ App.isProcessing st' = true
    /\ App.messages st' = App.messages st ++ [App.user_message q].
Proof.
  intros H. destruct query as [q|]; [|discriminate].
  exists q. destruct (all_space q) eqn:Hq.
  { rewrite (before_fetch_blank q st Hq) in H. discriminate. }
  rewrite (before_fetch_asked q st Hq) in H.
  destruct (App.documents st) as [|d ds] eqn:Hd; [discriminate|].
  pose proof (retrieve_at_most_3 (new_RetrievalEngine (Some (d :: ds))) (Some q))
    as Hlen.
  destruct (retrieve _ _ _) as [|r rs] eqn:Hr; [discriminate|].
  injection H as <- <- <-.
  repeat split; auto. cbn [length]. lia.
Qed.

(** X23. The prompt carries the question and, of every retrieved document,
    the title and the content, letter for letter. *)
Theorem prompt_grounded (retrieved : list ScoredDocument) (q : string) :
  occurs_in q (App.prompt retrieved q)
  /\ Forall (fun r =>
               occurs_in (title (doc (indexed r))) (App.prompt retrieved q)
               /\ occurs_in (App.shown_content (doc (indexed r)))
                            (App.prompt retrieved q))
            retrieved.
Proof.
  split.
  - unfold App.prompt.
    do 9 apply occurs_in_append_r. apply occurs_in_append_l, occurs_in_refl.
  - apply Forall_forall. intros r Hr.
    assert (forall sub,
               occurs_in sub ("Document: " ++ title (doc (indexed r)) ++ App.newline
                              ++ "Content: " ++ App.shown_content (doc (indexed r))) ->
               occurs_in sub (App.prompt retrieved q)) as Hin.
    { intros sub Hsub. unfold App.prompt.
      do 5 apply occurs_in_append_r. apply occurs_in_append_l.
      unfold App.context.
      apply occurs_in_join
        with (x := ("Document: " ++ title (doc (indexed r)) ++ App.newline
                    ++ "Content: " ++ App.shown_content (doc (indexed r)))%string);
        [|exact Hsub].
      apply (in_map (fun r => ("Document: " ++ title (doc (indexed r)) ++ App.newline
                               ++ "Content: "
                               ++ App.shown_content (doc (indexed r)))%string)).
      exact Hr. }
    split; apply Hin.
    + apply occurs_in_append_r, occurs_in_append_l, occurs_in_refl.
    + do 4 apply occurs_in_append_r. apply occurs_in_refl.
Qed.

(** X24. An answer is shown as a success only when the back end answers
    with a true [success] and a content that is not empty; it is then shown
    as received, with the retrieved documents.  Everything else, an empty
    content too, is shown as an error without documents. *)
Theorem reply_success (retrieved : list ScoredDocument) (r : App.FetchResult) :
  (App.status (App.reply retrieved r) = Some "success"
   <-> exists c, r = App.Parsed true (Some c) /\ c <> EmptyString)
  /\ (forall c, r = App.Parsed true (Some c) -> c <> EmptyString ->
      App.text (App.reply retrieved r) = c
      /\ App.retrievedDocs (App.reply retrieved r) = Some retrieved)
  /\ (App.status (App.reply retrieved r) <> Some "success" ->
      App.status (App.reply retrieved r) = Some "error"
      /\ App.retrievedDocs (App.reply retrieved r) = None).
Proof.
  split; [|split].
  - split.
    + destruct r as [e|c e|[|] [[|c s]|]]; cbn; try discriminate.
      intros _. exists (String c s). split; [reflexivity|discriminate].
    + intros [c [-> Hc]]. destruct c; [now elim Hc|reflexivity].
  - intros c -> Hc. destruct c; [now elim Hc|]. split; reflexivity.
  - destruct r as [e|c e|[|] [[|c s]|]]; cbn; intros H; try (split; reflexivity).
    now elim H.
Qed.

(** X25. While a question is being processed, the send button does
    nothing: the input stays and the application is not changed. *)
Theorem send_while_processing
    (fetch : App.Request -> App.FetchResult) (input : string) (st : App.State) :
  App.isProcessing st = true -> App.send fetch input st = (input, st).
Proof.
  intros H. unfold App.send, App.handleSend. rewrite H.
  now rewrite orb_true_r.
Qed.

(** X25 on a state that is processing. *)
Lemma send_while_processing_witness :
  App.isProcessing (App.mkState Scenario.collection [] true false false) = true
  /\ App.send (fun _ => App.Parsed true (Some "An answer.")) "machine learning"
       (App.mkState Scenario.collection [] true false false)
     = ("machine learning", App.mkState Scenario.collection [] true false false).
Proof.
  split; [reflexivity|].
  apply (send_while_processing (fun _ => App.Parsed true (Some "An answer."))
           "machine learning"
           (App.mkState Scenario.collection [] true false false)).
  reflexivity.
Defined.

(** ** Properties of the back end and of the script *)

Section BackEnd.

Local Open Scope string_scope.

Lemma last_from_head {A} (ms : list A) (m d : A) : last ms m = last (m :: ms) d.
Proof.
  revert m. induction ms as [|y l IH]; intros m; [reflexivity|].
  destruct l as [|a l]; [reflexivity|]. exact (IH m).
Qed.

Lemma prefix_append p x : String.prefix p (p ++ x) = true.
Proof.
  induction p as [|c p IH]; simpl; [now destruct x|].
  destruct (ascii_dec c c) as [_|Hc]; [exact IH|now elim Hc].
Qed.

Lemma length_string_append a b :
  String.length (a ++ b) = String.length a + String.length b.
Proof. induction a as [|c a IH]; simpl; [reflexivity|now rewrite IH]. Qed.

Lemma substring_all s : String.substring 0 (String.length s) s = s.
Proof. induction s as [|c s IH]; simpl; [reflexivity|now rewrite IH]. Qed.

Lemma substring_append p x n :
  String.substring (String.length p) n (p ++ x) = String.substring 0 n x.
Proof. induction p as [|c p IH]; simpl; [reflexivity|exact IH]. Qed.

Lemma remove_first_prefix p x : Script.remove_first p (p ++ x) = x.
Proof.
  assert (forall s, Script.remove_first p s
                    = if String.prefix p s
                      then String.substring (String.length p)
                             (String.length s - String.length p) s
                      else match s with
                           | EmptyString => EmptyString
                           | String c s' => String c (Script.remove_first p s')
                           end) as Heq by (intros [|c s]; reflexivity).
  rewrite Heq, prefix_append, substring_append, length_string_append.
  replace (String.length p + String.length x - String.length p)
    with (String.length x) by lia.
  apply substring_all.
Qed.

Lemma validModels_first models :
  match Script.validModels models with
  | [] => Forall (fun m => Script.supports_generation m = false) models
  | m :: _ =>
      exists before after,
        models = (before ++ m :: after)%list
        /\ Forall (fun m' => Script.supports_generation m' = false) before
        /\ Script.supports_generation m = true
  end.
Proof.
  unfold Script.validModels.
  induction models as [|m models IH]; cbn [filter]; [constructor|].
  destruct (Script.supports_generation m) eqn:Hm.
  - exists [], models. repeat split; [constructor|exact Hm].
  - destruct (filter Script.supports_generation models) as [|m' l].
    + constructor; assumption.
    + destruct IH as [before [after [-> [Hb Hm']]]].
      exists (m :: before), after. repeat split; [constructor|]; assumption.
Qed.

End BackEnd.

(** X22 on the three documents of the scenario: the request goes out with
    the document that [retrieve] returns. *)
Lemma request_sent_witness :
  App.before_fetch Scenario.query
    (App.mkState Scenario.collection [] false false false)
  = (App.mkState Scenario.collection [App.user_message "machine learning"]
                 true false false,
     Some (App.request (retrieve Scenario.engine Scenario.query 3) "machine learning",
           retrieve Scenario.engine Scenario.query 3))
  /\ exists q,
       Scenario.query = Some q
       /\ all_space q = false
       /\ retrieve Scenario.engine Scenario.query 3
          = retrieve (new_RetrievalEngine
                        (Some (App.documents
                                 (App.mkState Scenario.collection [] false false false))))
                     Scenario.query 3
       /\ 1 <= length (retrieve Scenario.engine Scenario.query 3) <= 3
       /\ App.request (retrieve Scenario.engine Scenario.query 3) "machine learning"
          = App.mkRequest "gemini-1.5-flash"
              [App.mkChatMessage "user"
                 (App.prompt (retrieve Scenario.engine Scenario.query 3) q)]
       /\ App.isProcessing
            (App.mkState Scenario.collection [App.user_message "machine learning"]
                         true false false) = true
       /\ App.messages
            (App.mkState Scenario.collection [App.user_message "machine learning"]
                         true false false)
          = App.messages (App.mkState Scenario.collection [] false false false)
            ++ [App.user_message q].
Proof.
  assert (App.before_fetch Scenario.query
            (App.mkState Scenario.collection [] false false false)
          = (App.mkState Scenario.collection [App.user_message "machine learning"]
                         true false false,
             Some (App.request (retrieve Scenario.engine Scenario.query 3)
                               "machine learning",
                   retrieve Scenario.engine Scenario.query 3))) as H.
  { unfold Scenario.query.
    rewrite (before_fetch_asked "machine learning" _ eq_refl).
    cbn [App.documents App.messages App.isSidebarOpen App.isMobile
         Scenario.collection app].
    change (new_RetrievalEngine (Some Scenario.collection)) with Scenario.engine.
    change (Some "machine learning") with Scenario.query.
    destruct scenario_retrieve as [s [-> _]]. reflexivity. }
  split; [exact H|].
  exact (request_sent _ _ _ _ _ H).
Defined.


(** X27. The back end reads the last message only: the earlier messages, the
    roles and the model that the request names change nothing, and the model
    of the answer is the configured one. *)
Theorem chat_last_message
    (generate : string -> Server.Generation) (requested requested' : option string)
    (ms : list App.ChatMessage) (m : App.ChatMessage) (role' : string) :
  Server.chat generate (Server.mkBody requested (Some (ms ++ [m])))
  = Server.chat generate
      (Server.mkBody requested'
         (Some [App.mkChatMessage role' (App.chat_content m)]))
  /\ forall model content,
       Server.chat generate (Server.mkBody requested (Some (ms ++ [m])))
       = Server.Success model content ->
       model = "gemini-2.5-flash".
Proof.
  assert (Server.chat generate (Server.mkBody requested (Some (ms ++ [m])))
          = match generate (App.chat_content m) with
            | Server.Generated text => Server.Success Server.MODEL_NAME text
            | Server.Failed message =>
                Server.ServerError "Gemini Request Failed" message
            end) as H.
  { unfold Server.chat. cbn [Server.body_messages].
    destruct (ms ++ [m]) as [|x l] eqn:E; [now destruct ms|].
    rewrite (last_from_head l x x), <- E, last_last. reflexivity. }
  split.
  - rewrite H. reflexivity.
  - intros model content. rewrite H.
    destruct (generate _); [|discriminate].
    intros Heq. injection Heq as <- _. reflexivity.
Qed.

(** X28. The script tries the first model of the list, in the order of the
    API, that supports [generateContent], under its name without the first
    [models/]; it tries none exactly when no model supports it. *)
Theorem testModel_first (models : list Script.ModelInfo) :
  (forall n,
      Script.testModel models = Some n <->
      exists before m after,
        models = before ++ m :: after
        /\ Forall (fun m' => Script.supports_generation m' = false) before
        /\ Script.supports_generation m = true
        /\ n = Script.short_name m)
  /\ (Script.testModel models = None
      <-> Forall (fun m => Script.supports_generation m = false) models).
Proof.
  pose proof (validModels_first models) as H.
  unfold Script.testModel.
  assert (forall before m after,
             Forall (fun m' => Script.supports_generation m' = false) before ->
             Script.supports_generation m = true ->
             Script.validModels (before ++ m :: after)
             = m :: Script.validModels after) as Hfirst.
  { intros before m after Hb Hm. unfold Script.validModels.
    induction Hb as [|x l Hx Hl IH]; cbn [app filter].
    - now rewrite Hm.
    - now rewrite Hx. }
  destruct (Script.validModels models) as [|m l] eqn:Hv.
  - split.
    + intros n. split; [discriminate|].
      intros [before [m [after [-> [Hb [Hm _]]]]]].
      rewrite (Hfirst _ _ _ Hb Hm) in Hv. discriminate.
    + split; auto.
  - destruct H as [before [after [-> [Hb Hm]]]]. split.
    + intros n. split.
      * intros Hn. injection Hn as <-. exists before, m, after. auto.
      * intros [before' [m' [after' [Heq [Hb' [Hm' ->]]]]]].
        rewrite Heq, (Hfirst _ _ _ Hb' Hm') in Hv.
        injection Hv as -> _. reflexivity.
    + split; [discriminate|]. intros Hall.
      apply Forall_app in Hall as [_ Hall]. apply Forall_cons_iff in Hall as [Hm' _].
      congruence.
Qed.

(** X29. The name shown for a model [models/x] is [x], whatever [x] is,
    also when [x] holds [models/] again. *)
Theorem short_name_prefix (x : string) (methods : option (list string)) :
  Script.short_name (Script.mkModelInfo (String.append "models/" x) methods) = x.
Proof.
  unfold Script.short_name. cbn [Script.name].
  apply (remove_first_prefix "models/" x).
Qed.
